(** * go-o11y: the deterministic sampler and the tracing facade

    A shallow embedding of [o11y/otel/sampler.go] (module [Otel]) and of
    [o11y.go] (module [O11y]), with the properties of the specification
    proved, amended or refuted on it.

    Conventions.
    - Go's [uint] and [uint32] are carried as [Z]; a conversion writes its
      wrap-around out ([uint32 x = x mod 2^32]). [uint] is 32 or 64 bits
      wide by platform; no theorem depends on the width, a rate above
      [MaxUint32] exists only where it is 64.
    - A Go [string] is a sequence of bytes: Rocq's [string], one [ascii]
      per byte.
    - A Go [map] is a reference to a mutable object: maps live in a [store]
      and are named by their address; code runs in a state and panic monad
      over that store. *)

From Stdlib Require Import ZArith Lia List Ascii String.
From stdpp Require Import base option gmap strings list fin_maps.

Local Open Scope Z_scope.

(** ** Outcomes: a Go call returns, or panics *)

Inductive outcome (A : Type) : Type :=
| Returns (a : A)
| Panics (msg : string).
Arguments Returns {A} a.
Arguments Panics {A} msg.

Definition outcome_bind {A B} (o : outcome A) (k : A → outcome B) : outcome B :=
  match o with
  | Returns a => k a
  | Panics msg => Panics msg
  end.

Definition returned {A} (o : outcome A) : Prop := ∃ a, o = Returns a.

(** ** hash/crc32 and encoding/hex, as the sampler uses them *)

Module Crc32.

(** [const IEEE = 0xedb88320] *)
Definition IEEE : Z := 0xedb88320.

(** [^x] on a [uint32]. *)
Definition not32 (x : Z) : Z := Z.lxor x 0xFFFFFFFF.

(** One turn of the inner loop of [simplePopulateTable]:
    [if crc&1 == 1 { crc = (crc >> 1) ^ poly } else { crc >>= 1 }]. *)
Definition shiftStep (poly crc : Z) : Z :=
  if Z.land crc 1 =? 1 then Z.lxor (Z.shiftr crc 1) poly else Z.shiftr crc 1.

(** The entry [t[i]] that [simplePopulateTable] writes: eight turns from
    [uint32(i)]. *)
Definition tableEntry (poly i : Z) : Z :=
  Nat.iter 8 (shiftStep poly) i.

(** [simpleMakeTable(IEEE)]: the 256 entries, computed once. *)
Definition IEEETable : list Z :=
  Eval vm_compute in map (λ i, tableEntry IEEE (Z.of_nat i)) (seq 0 256).

(** [byte(x)]: the low eight bits. *)
Definition byte (x : Z) : Z := Z.land x 0xFF.

(** The bytes of a Go string, [[]byte(s)]. *)
Definition bytes (s : string) : list Z :=
  map (λ c, Z.of_N (N_of_ascii c)) (list_ascii_of_string s).

(** The body of the loop of [simpleUpdate]:
    [crc = tab[byte(crc)^v] ^ (crc >> 8)]. *)
Definition updateByte (tab : list Z) (crc v : Z) : Z :=
  Z.lxor (nth (Z.to_nat (Z.lxor (byte crc) v)) tab 0) (Z.shiftr crc 8).

(** [simpleUpdate(crc, tab, p)]. *)
Definition simpleUpdate (crc : Z) (tab : list Z) (p : list Z) : Z :=
  not32 (fold_left (updateByte tab) p (not32 crc)).

(** [ChecksumIEEE(data)]: [Update(0, IEEETable, data)]. *)
Definition ChecksumIEEE (data : list Z) : Z :=
  simpleUpdate 0 IEEETable data.

(** The CRC-32 of IEEE 802.3 bit by bit, for comparison with the table:
    the register is preset to all ones, each byte is added into its low end
    and followed by eight turns of the shift register with the reflected
    polynomial [IEEE], and the result is complemented. *)
Definition bitwiseByte (crc v : Z) : Z :=
  Nat.iter 8 (shiftStep IEEE) (Z.lxor crc v).

Definition bitwiseIEEE (data : list Z) : Z :=
  not32 (fold_left bitwiseByte data (not32 0)).

End Crc32.

Module Hex.

(** [const hextable = "0123456789abcdef"] *)
Definition hextable : string := "0123456789abcdef".

Definition hexDigit (n : N) : ascii :=
  default "0"%char (String.get (N.to_nat n) hextable).

(** [EncodeToString(src)]: for each byte [v], [hextable[v>>4]] then
    [hextable[v&0x0f]]. *)
Fixpoint EncodeToString (src : list Byte.byte) : string :=
  match src with
  | [] => EmptyString
  | v :: rest =>
      String (hexDigit (N.shiftr (Byte.to_N v) 4))
        (String (hexDigit (N.land (Byte.to_N v) 0x0f))
           (EncodeToString rest))
  end.

End Hex.

(** ** o11y/otel/sampler.go *)

Module Otel.

(** *** The read-only span the sampler consumes

    [sdktrace.ReadOnlySpan] is an interface of the OpenTelemetry SDK; the
    sampler calls [Attributes], [Name] and [SpanContext().SpanID()] on it. *)

(** Go's [any], restricted to the dynamic types that reach the fields map:
    what [Value.AsInterface] returns, and the [string] of the span name. *)
Inductive any : Type :=
| AnyBool (b : bool)
| AnyInt64 (i : Z)
| AnyFloat64 (bits : Z)
| AnyString (s : string)
| AnyBools (bs : list bool)
| AnyInt64s (ns : list Z)
| AnyFloat64s (fs : list Z)
| AnyStrings (ss : list string)
| AnyUnknown.

Module attribute.

(** [attribute.Value]: the kinds of value an attribute holds. A float64
    is carried as its bit pattern, which the sampler never inspects. *)
Inductive Value : Type :=
| BoolValue (b : bool)
| Int64Value (i : Z)
| Float64Value (bits : Z)
| StringValue (s : string)
| BoolSliceValue (bs : list bool)
| Int64SliceValue (ns : list Z)
| Float64SliceValue (fs : list Z)
| StringSliceValue (ss : list string)
| InvalidValue.

(** [func (v Value) AsInterface() interface{}] *)
Definition AsInterface (v : Value) : any :=
  match v with
  | BoolValue b => AnyBool b
  | Int64Value i => AnyInt64 i
  | Float64Value f => AnyFloat64 f
  | StringValue s => AnyString s
  | BoolSliceValue bs => AnyBools bs
  | Int64SliceValue ns => AnyInt64s ns
  | Float64SliceValue fs => AnyFloat64s fs
  | StringSliceValue ss => AnyStrings ss
  | InvalidValue => AnyUnknown
  end.

End attribute.

(** [attribute.KeyValue] *)
Record KeyValue : Type := { Key : string; Value : attribute.Value }.

Module trace.

(** [trace.SpanID] is [[8]byte]; [String] renders it in lower-case
    hexadecimal. *)
Definition SpanID : Type := list Byte.byte.
Definition String (id : SpanID) : string := Hex.EncodeToString id.

(** [trace.SpanContext], of which the sampler reads [SpanID()]. *)
Record SpanContext : Type := { spanID : SpanID }.

End trace.

Record ReadOnlySpan : Type := {
  Attributes : list KeyValue;
  Name : string;
  SpanContext : trace.SpanContext
}.

(** *** The store of map objects *)

Definition loc : Type := positive.

(** [fieldMaps] holds the [map[string]any] objects, [rateMaps] the
    [map[string]uint] ones; a Go map value is an address into them. *)
Record store : Type := Store {
  fieldMaps : gmap loc (gmap string any);
  rateMaps : gmap loc (gmap string Z)
}.

(** Code that reads and writes the store and may panic. *)
Definition M (A : Type) : Type := store → outcome A * store.

#[global] Instance M_ret : MRet M := λ A a σ, (Returns a, σ).
#[global] Instance M_bind : MBind M := λ A B k c σ,
  match c σ with
  | (Returns a, σ') => k a σ'
  | (Panics msg, σ') => (Panics msg, σ')
  end.

(** A pure computation that may panic, run inside [M]. *)
Definition lift {A} (o : outcome A) : M A := λ σ, (o, σ).

(** [map[string]any{}]: a new, empty map at an unused address. *)
Definition makeFields : M loc := λ σ,
  let l := fresh (dom (fieldMaps σ)) in
  (Returns l, Store (<[l := ∅]> (fieldMaps σ)) (rateMaps σ)).

(** [fields[k] = v] *)
Definition setField (fields : loc) (k : string) (v : any) : M unit := λ σ,
  match fieldMaps σ !! fields with
  | Some m => (Returns (), Store (<[fields := <[k := v]> m]> (fieldMaps σ)) (rateMaps σ))
  | None => (Panics "assignment to entry in nil map", σ)
  end.

(** What a callee that is handed [fields] reads: the map's entries. *)
Definition readFields (fields : loc) : M (gmap string any) := λ σ,
  (Returns (default ∅ (fieldMaps σ !! fields)), σ).

(** The entries of the [map[string]uint] at [rates]; a nil map reads as
    the empty map. *)
Definition rateTable (σ : store) (rates : loc) : gmap string Z :=
  default ∅ (rateMaps σ !! rates).

(** [rate, ok := rates[key]] *)
Definition lookupRate (rates : loc) (key : string) : M (option Z) := λ σ,
  (Returns (rateTable σ rates !! key), σ).

(** *** The sampler *)

(** [type deterministicSampler struct]. The key function is taken to be
    not nil and to return a key for every map, as a function of the entries
    of the map it is given. A Go [func] value that is nil, or that panics,
    makes the call of line 23 panic before the table is read; such a
    sampler is outside this model. *)
Record deterministicSampler : Type := {
  sampleKeyFunc : gmap string any → string;
  sampleRates : loc
}.

(** [math.MaxUint32] *)
Definition MaxUint32 : Z := 4294967295.

(** [uint32(x)] of a [uint]: the low 32 bits. *)
Definition uint32 (x : Z) : Z := x mod 2 ^ 32.

(** [a / b] on [uint32]: a zero divisor is a run-time panic. *)
Definition div32 (a b : Z) : outcome Z :=
  if b =? 0 then Panics "runtime error: integer divide by zero"
  else Returns (a / b).

(** [func shouldKeep(determinant string, rate uint) bool] *)
Definition shouldKeep (determinant : string) (rate : Z) : outcome bool :=
  if rate =? 1 then Returns true
  else
    outcome_bind (div32 MaxUint32 (uint32 rate)) (λ threshold,
    let v := Crc32.ChecksumIEEE (Crc32.bytes determinant) in
    Returns (v <? threshold)).

(** The loop [for _, attr := range p.Attributes()] of [shouldSample]. *)
Fixpoint rangeAttributes (fields : loc) (attrs : list KeyValue) : M unit :=
  match attrs with
  | [] => mret ()
  | attr :: rest =>
      setField fields (Key attr) (attribute.AsInterface (Value attr));;
      rangeAttributes fields rest
  end.

(** [func (s deterministicSampler) shouldSample(p sdktrace.ReadOnlySpan) (bool, uint)] *)
Definition shouldSample (s : deterministicSampler) (p : ReadOnlySpan) : M (bool * Z) :=
  fields ← makeFields;
  rangeAttributes fields (Attributes p);;
  setField fields "name" (AnyString (Name p));;
  entries ← readFields fields;
  let key := sampleKeyFunc s entries in
  found ← lookupRate (sampleRates s) key;
  match found with
  | None => mret (true, 1)
  | Some rate =>
      keep ← lift (shouldKeep (trace.String (trace.spanID (SpanContext p))) rate);
      mret (keep, rate)
  end.

(** *** What the code computes, read off the store

    [spanFields p] is the content of the local [fields] map when line 23
    hands it to the key function (lemma [buildFields_run] below proves
    it); [sampleKey] is [key] and [determinant] the first argument of
    [shouldKeep] at line 28. *)

Definition putAttr (m : gmap string any) (attr : KeyValue) : gmap string any :=
  <[Key attr := attribute.AsInterface (Value attr)]> m.

Definition spanFields (p : ReadOnlySpan) : gmap string any :=
  <["name" := AnyString (Name p)]> (fold_left putAttr (Attributes p) ∅).

Definition sampleKey (s : deterministicSampler) (p : ReadOnlySpan) : string :=
  sampleKeyFunc s (spanFields p).

Definition determinant (p : ReadOnlySpan) : string :=
  trace.String (trace.spanID (SpanContext p)).

(** The last attribute with key [k], if any. *)
Definition lastWithKey (k : string) (attrs : list KeyValue) : option KeyValue :=
  last (filter (λ a, Key a = k) attrs).

(** The span [p] with the value of every attribute keyed "name" replaced
    by [v]. *)
Definition setNameValue (v : attribute.Value) (a : KeyValue) : KeyValue :=
  if decide (Key a = "name") then {| Key := Key a; Value := v |} else a.

Definition setNameValues (v : attribute.Value) (p : ReadOnlySpan) : ReadOnlySpan :=
  {| Attributes := setNameValue v <$> Attributes p;
     Name := Name p;
     SpanContext := SpanContext p |}.

(** Lines 24 to 28 of [shouldSample] as a function of the table's entries,
    the key and the determinant. *)
Definition decideOnKey (table : gmap string Z) (key d : string) : outcome (bool * Z) :=
  match table !! key with
  | None => Returns (true, 1)
  | Some rate => outcome_bind (shouldKeep d rate) (λ keep, Returns (keep, rate))
  end.

(** The store a call of [shouldSample] leaves: the store it found, with
    the local map at a new address. *)
Definition withFields (σ : store) (p : ReadOnlySpan) : store :=
  Store (<[fresh (dom (fieldMaps σ)) := spanFields p]> (fieldMaps σ)) (rateMaps σ).

(** The result of a run, and the store it leaves. *)
Definition result {A} (r : outcome A * store) : outcome A := r.1.
Definition final {A} (r : outcome A * store) : store := r.2.

(** Spans sampled one after the other, each call starting in the store
    the one before left; a panic ends the sequence. *)
Fixpoint sampleAll (s : deterministicSampler) (ps : list ReadOnlySpan) : M (list (bool * Z)) :=
  match ps with
  | [] => mret []
  | p :: rest =>
      d ← shouldSample s p;
      ds ← sampleAll s rest;
      mret (d :: ds)
  end.

End Otel.

(** ** o11y.go *)

Module O11y.

(** A non-nil [Provider] interface value: the pointer to the package's
    [noopProvider], or a backend's implementation, named by a handle. *)
Inductive Provider : Type :=
| noopProviderPtr
| backendProvider (id : nat).

(** A non-nil [Span] interface value. *)
Inductive Span : Type :=
| noopSpanPtr
| backendSpan (id : nat).

(** A key of [context.WithValue]: the package's unexported
    [providerKey{}], or a key of some other package. *)
Inductive ctxKey : Type :=
| providerKey
| foreignKey (name : string).

#[global] Instance ctxKey_eq_dec : EqDecision ctxKey.
Proof. solve_decision. Defined.

(** The package [context], as far as values go. *)
Module context.
Section Values.
Context {any : Type}.

(** What a context stores under a key: nil, a [Provider], or a value
    that does not implement [Provider]. *)
Inductive val : Type :=
| nilVal
| providerVal (p : Provider)
| foreignVal (v : any).

(** [context.Context] *)
Inductive Context : Type :=
| Background
| WithValue (parent : Context) (key : ctxKey) (v : val).

(** [ctx.Value(key)]: the value of the nearest enclosing [WithValue]
    for [key], or nil. *)
Fixpoint Value (ctx : Context) (key : ctxKey) : val :=
  match ctx with
  | Background => nilVal
  | WithValue parent k v => if decide (k = key) then v else Value parent key
  end.
End Values.
Arguments val : clear implicits.
Arguments Context : clear implicits.
End context.

(** [type Pair struct] *)
Record Pair (any : Type) : Type := { Key : string; Value : any }.

(** The method set of the interface [Span], over the state [World] of the
    tracing backend (open spans, recorded fields, exported events). *)
Module SpanMethods.
Record t (World any : Type) : Type := {
  AddField : string → any → World → World;
  End_ : World → World
}.
Arguments AddField {World any}.
Arguments End_ {World any}.
End SpanMethods.

(** The method set of the interface [Provider]. *)
Module ProviderMethods.
Record t (World any : Type) : Type := {
  AddGlobalField : string → any → World → World;
  StartSpan : context.Context any → string → World → (context.Context any * Span) * World;
  AddField : context.Context any → string → any → World → World;
  AddFieldToTrace : context.Context any → string → any → World → World;
  Log : context.Context any → string → list (Pair any) → World → World;
  Close : context.Context any → World → World
}.
Arguments AddGlobalField {World any}.
Arguments StartSpan {World any}.
Arguments AddField {World any}.
Arguments AddFieldToTrace {World any}.
Arguments Log {World any}.
Arguments Close {World any}.
End ProviderMethods.

Section Facade.

Context {World any : Type}.

(** [type noopSpan struct{}] and its methods, all with empty bodies. *)
Definition noopSpan : SpanMethods.t World any := {|
  SpanMethods.AddField := λ key val w, w;
  SpanMethods.End_ := λ w, w
|}.

(** [type noopProvider struct{}] and its methods. *)
Definition noopProvider : ProviderMethods.t World any := {|
  ProviderMethods.AddGlobalField := λ key val w, w;
  ProviderMethods.StartSpan := λ ctx name w, ((ctx, noopSpanPtr), w);
  ProviderMethods.AddField := λ ctx key val w, w;
  ProviderMethods.AddFieldToTrace := λ ctx key val w, w;
  ProviderMethods.Close := λ ctx w, w;
  ProviderMethods.Log := λ ctx name fields w, w
|}.

(** [var defaultProvider = &noopProvider{}] *)
Definition defaultProvider : Provider := noopProviderPtr.

(** The implementations behind the backends' handles. *)
Variable backendProviders : nat → ProviderMethods.t World any.
Variable backendSpans : nat → SpanMethods.t World any.

(** Method dispatch on an interface value. *)
Definition providerMethods (p : Provider) : ProviderMethods.t World any :=
  match p with
  | noopProviderPtr => noopProvider
  | backendProvider id => backendProviders id
  end.

Definition spanMethods (sp : Span) : SpanMethods.t World any :=
  match sp with
  | noopSpanPtr => noopSpan
  | backendSpan id => backendSpans id
  end.

(** [func WithProvider(ctx context.Context, p Provider) context.Context];
    [p] may be the nil interface value, here [None]. *)
Definition WithProvider (ctx : context.Context any) (p : option Provider) : context.Context any :=
  context.WithValue ctx providerKey
    match p with
    | Some q => context.providerVal q
    | None => context.nilVal
    end.

(** [func FromContext(ctx context.Context) Provider]: the type assertion
    [.(Provider)] fails on nil and on a value that is no [Provider]. *)
Definition FromContext (ctx : context.Context any) : Provider :=
  match context.Value ctx providerKey with
  | context.providerVal provider => provider
  | _ => defaultProvider
  end.

(** [func StartSpan(ctx context.Context, name string) (context.Context, Span)] *)
Definition StartSpan (ctx : context.Context any) (name : string)
  : World → (context.Context any * Span) * World :=
  ProviderMethods.StartSpan (providerMethods (FromContext ctx)) ctx name.

(** [func AddField(ctx context.Context, key string, val interface{})] *)
Definition AddField (ctx : context.Context any) (key : string) (val : any) : World → World :=
  ProviderMethods.AddField (providerMethods (FromContext ctx)) ctx key val.

(** [func AddFieldToTrace(ctx context.Context, key string, val interface{})] *)
Definition AddFieldToTrace (ctx : context.Context any) (key : string) (val : any) : World → World :=
  ProviderMethods.AddFieldToTrace (providerMethods (FromContext ctx)) ctx key val.

(** A context built without [WithProvider]: no layer of it is keyed by
    [providerKey], which no other package can name. *)
Fixpoint builtWithoutProvider (ctx : context.Context any) : Prop :=
  match ctx with
  | context.Background => True
  | context.WithValue parent key _ => key ≠ providerKey ∧ builtWithoutProvider parent
  end.

End Facade.

End O11y.

(** ** Concrete spans, samplers and stores *)

Module Scenario.
Import Otel.

(** The key function of the specification's end-to-end scenarios:
    [fields["name"]] when it is a string, else the empty string. *)
Definition keyByName (fields : gmap string any) : string :=
  match fields !! "name" with
  | Some (AnyString n) => n
  | _ => ""
  end.

(** A sampler whose table is the map object at address 1. *)
Definition sampler : deterministicSampler :=
  {| sampleKeyFunc := keyByName; sampleRates := 1%positive |}.

(** A store whose only object is the table [{"checkout": rate}]. *)
Definition storeWithRate (rate : Z) : store :=
  Store ∅ {[ 1%positive := {[ "checkout" := rate ]} ]}.

Definition span (name : string) (attrs : list KeyValue) (id : trace.SpanID) : ReadOnlySpan :=
  {| Attributes := attrs; Name := name; SpanContext := {| trace.spanID := id |} |}.

(** Span IDs chosen for the CRC32 of their text. *)
Definition idCrcZero : trace.SpanID :=
  [Byte.x00; Byte.x00; Byte.x00; Byte.x00; Byte.x51; Byte.xf5; Byte.x25; Byte.x0c].
Definition idCrcHalf : trace.SpanID :=
  [Byte.x00; Byte.x00; Byte.x00; Byte.x02; Byte.x96; Byte.x19; Byte.xf2; Byte.x6c].
Definition idCrcTenth : trace.SpanID :=
  [Byte.x00; Byte.x00; Byte.x00; Byte.x03; Byte.xb8; Byte.x4e; Byte.xda; Byte.xbd].

Definition checkout (id : trace.SpanID) : ReadOnlySpan := span "checkout" [] id.

(** A span with a repeated attribute key and an attribute named "name". *)
Definition shadowed : ReadOnlySpan :=
  span "GET /help"
    [ {| Key := "http.status"; Value := attribute.Int64Value 200 |};
      {| Key := "name"; Value := attribute.StringValue "from-attribute" |};
      {| Key := "http.status"; Value := attribute.Int64Value 500 |} ]
    idCrcZero.

End Scenario.

Module FacadeScenario.
Import O11y.

(** A backend whose state counts the calls it has received. *)
Definition countingSpan : SpanMethods.t nat string := {|
  SpanMethods.AddField := λ key val w, S w;
  SpanMethods.End_ := λ w, S w
|}.

Definition countingProvider : ProviderMethods.t nat string := {|
  ProviderMethods.AddGlobalField := λ key val w, S w;
  ProviderMethods.StartSpan := λ ctx name w, ((ctx, backendSpan 0), S w);
  ProviderMethods.AddField := λ ctx key val w, S w;
  ProviderMethods.AddFieldToTrace := λ ctx key val w, S w;
  ProviderMethods.Log := λ ctx name fields w, S w;
  ProviderMethods.Close := λ ctx w, S w
|}.

Definition countingProviders (id : nat) : ProviderMethods.t nat string := countingProvider.
Definition countingSpans (id : nat) : SpanMethods.t nat string := countingSpan.

(** A context that carries a request ID of some other package, and no
    provider. *)
Definition requestCtx : context.Context string :=
  context.WithValue context.Background (foreignKey "request-id") (context.foreignVal "42"%string).

End FacadeScenario.

(** ** o11y.go, the rest: [AddResultToSpan], [Field], and sequences of calls *)

Module O11yResult.
Import O11y.

Section Result.

Context {World any : Type}.

(** The conversion of a Go [string] to [interface{}]. *)
Variable anyOfString : string → any.

Variable backendProviders : nat → ProviderMethods.t World any.
Variable backendSpans : nat → SpanMethods.t World any.

(** [func AddResultToSpan(span Span, err error)]. An [error] is nil, here
    [None], or a value of which the code reads [err.Error()]. *)
Definition AddResultToSpan (span : Span) (err : option string) : World → World :=
  match err with
  | Some msg => λ w,
      let w1 := SpanMethods.AddField (spanMethods backendSpans span)
                  "result" (anyOfString "error") w in
      SpanMethods.AddField (spanMethods backendSpans span) "error" (anyOfString msg) w1
  | None =>
      SpanMethods.AddField (spanMethods backendSpans span) "result" (anyOfString "success")
  end.

(** [func Field(key string, value interface{}) Pair] *)
Definition Field (key : string) (value : any) : Pair any :=
  {| Key := key; Value := value |}.

(** A call a client makes through the package, on the context and the span
    it holds. *)
Inductive call : Type :=
| callStartSpan (name : string)
| callAddField (key : string) (val : any)
| callAddFieldToTrace (key : string) (val : any)
| callLog (name : string) (fields : list (Pair any))
| callSpanAddField (key : string) (val : any)
| callAddResultToSpan (err : option string)
| callSpanEnd.

(** A client: the context and span it holds, and the backend's state. *)
Record client : Type := Client {
  heldCtx : context.Context any;
  heldSpan : Span;
  world : World
}.

(** One call. [StartSpan] replaces the context and the span held, as in
    [ctx, span := o11y.StartSpan(ctx, name)]. *)
Definition perform (c : client) (op : call) : client :=
  match op with
  | callStartSpan name =>
      let '((ctx, span), w) := StartSpan backendProviders (heldCtx c) name (world c) in
      Client ctx span w
  | callAddField key val =>
      Client (heldCtx c) (heldSpan c) (AddField backendProviders (heldCtx c) key val (world c))
  | callAddFieldToTrace key val =>
      Client (heldCtx c) (heldSpan c)
        (AddFieldToTrace backendProviders (heldCtx c) key val (world c))
  | callLog name fields =>
      Client (heldCtx c) (heldSpan c)
        (ProviderMethods.Log (providerMethods backendProviders (FromContext (heldCtx c)))
           (heldCtx c) name fields (world c))
  | callSpanAddField key val =>
      Client (heldCtx c) (heldSpan c)
        (SpanMethods.AddField (spanMethods backendSpans (heldSpan c)) key val (world c))
  | callAddResultToSpan err =>
      Client (heldCtx c) (heldSpan c) (AddResultToSpan (heldSpan c) err (world c))
  | callSpanEnd =>
      Client (heldCtx c) (heldSpan c)
        (SpanMethods.End_ (spanMethods backendSpans (heldSpan c)) (world c))
  end.

Definition performAll (c : client) (ops : list call) : client :=
  fold_left perform ops c.

(** Layers of other packages' values put on top of a context. *)
Definition withForeignValues (ctx : context.Context any)
    (layers : list (string * context.val any)) : context.Context any :=
  fold_left (λ c layer, context.WithValue c (foreignKey layer.1) layer.2) layers ctx.

End Result.

End O11yResult.

Module ResultScenario.
Import O11y.

(** A backend whose state is the fields of its one span: [AddField] writes
    the field, [End] leaves the fields alone. *)
Definition recordingSpan : SpanMethods.t (gmap string string) string := {|
  SpanMethods.AddField := λ key val w, <[key := val]> w;
  SpanMethods.End_ := λ w, w
|}.

Definition recordingSpans (id : nat) : SpanMethods.t (gmap string string) string :=
  recordingSpan.

End ResultScenario.

(** ** Reading hexadecimal back, to state that [EncodeToString] loses nothing *)

Module HexDecode.

(** A lower-case hexadecimal digit. *)
Definition isHexDigit (c : ascii) : bool :=
  let n := N_of_ascii c in
  ((48 <=? n) && (n <=? 57) || (97 <=? n) && (n <=? 102))%N.

(** The value of a hexadecimal digit. *)
Definition digitValue (c : ascii) : N :=
  let n := N_of_ascii c in
  (if n <=? 57 then n - 48 else n - 87)%N.

(** The bytes a string of hexadecimal digit pairs spells. *)
Fixpoint decode (s : string) : option (list Byte.byte) :=
  match s with
  | EmptyString => Some []
  | String hi (String lo rest) =>
      match Byte.of_N (16 * digitValue hi + digitValue lo), decode rest with
      | Some v, Some vs => Some (v :: vs)
      | _, _ => None
      end
  | String _ EmptyString => None
  end.

End HexDecode.

(** * Theorems *)

Example crc32_check_value :
  Crc32.ChecksumIEEE (Crc32.bytes "123456789") = 0xCBF43926.
Proof. vm_compute. reflexivity. Qed.

Example crc32_abc123 :
  Crc32.ChecksumIEEE (Crc32.bytes "abc123") = 3473062748.
Proof. vm_compute. reflexivity. Qed.

Example hex_encode_sample :
  Hex.EncodeToString [Byte.x00; Byte.x51; Byte.xf5; Byte.x0c] = "0051f50c"%string.
Proof. reflexivity. Qed.


(** ** The sampler *)

Module SamplerSpec.
Import Otel.

(** *** Running the code *)

Lemma rangeAttributes_run fields attrs : ∀ σ m,
  fieldMaps σ !! fields = Some m →
  rangeAttributes fields attrs σ =
    (Returns (), Store (<[fields := fold_left putAttr attrs m]> (fieldMaps σ)) (rateMaps σ)).
Proof.
  induction attrs as [|attr rest IH]; intros σ m Hm; simpl.
  - unfold mret, M_ret. destruct σ as [fm rm]; simpl in *.
    by rewrite insert_id.
  - unfold mbind, M_bind at 1. unfold setField at 1. rewrite Hm.
    rewrite (IH _ (putAttr m attr)); simpl.
    + by rewrite insert_insert_eq.
    + by rewrite lookup_insert_eq.
Qed.

Lemma shouldSample_run s p σ :
  shouldSample s p σ =
    (decideOnKey (rateTable σ (sampleRates s)) (sampleKey s p) (determinant p),
     withFields σ p).
Proof.
  unfold shouldSample, withFields, decideOnKey.
  set (l := fresh (dom (fieldMaps σ))).
  unfold mbind, M_bind at 1. unfold makeFields at 1. fold l.
  unfold mbind, M_bind at 1.
  rewrite (rangeAttributes_run l (Attributes p) _ ∅).
  2:{ simpl. rewrite lookup_insert_eq. reflexivity. }
  simpl fieldMaps. simpl rateMaps. rewrite insert_insert_eq.
  unfold mbind, M_bind at 1. unfold setField at 1. simpl fieldMaps.
  rewrite lookup_insert_eq. simpl rateMaps. rewrite insert_insert_eq.
  unfold mbind, M_bind at 1. unfold readFields at 1. simpl fieldMaps.
  rewrite lookup_insert_eq. simpl default.
  unfold mbind, M_bind at 1. unfold lookupRate at 1.
  unfold rateTable at 1 2. cbn [rateMaps].
  fold (spanFields p). fold (sampleKey s p).
  destruct (default ∅ (rateMaps σ !! sampleRates s) !! sampleKey s p) as [rate|]; [|done].
  unfold mbind, M_bind, lift. fold (determinant p).
  by destruct (shouldKeep (determinant p) rate).
Qed.

Lemma shouldSample_result s p σ :
  result (shouldSample s p σ) =
    decideOnKey (rateTable σ (sampleRates s)) (sampleKey s p) (determinant p).
Proof. by rewrite shouldSample_run. Qed.

Lemma shouldSample_final s p σ : final (shouldSample s p σ) = withFields σ p.
Proof. by rewrite shouldSample_run. Qed.

(** *** [shouldKeep], case by case *)

Lemma uint32_small r : 0 ≤ r < 2 ^ 32 → uint32 r = r.
Proof. intros H. unfold uint32. by apply Z.mod_small. Qed.

Lemma shouldKeep_one d : shouldKeep d 1 = Returns true.
Proof. reflexivity. Qed.

Lemma shouldKeep_threshold d rate :
  rate ≠ 1 → uint32 rate ≠ 0 →
  shouldKeep d rate =
    Returns (Crc32.ChecksumIEEE (Crc32.bytes d) <? MaxUint32 / uint32 rate).
Proof.
  intros H1 H0. unfold shouldKeep, div32.
  destruct (Z.eqb_spec rate 1) as [|_]; [done|].
  by destruct (Z.eqb_spec (uint32 rate) 0) as [|_].
Qed.

Lemma shouldKeep_zero_divisor d rate :
  rate ≠ 1 → uint32 rate = 0 →
  shouldKeep d rate = Panics "runtime error: integer divide by zero".
Proof.
  intros H1 H0. unfold shouldKeep, div32.
  destruct (Z.eqb_spec rate 1) as [|_]; [done|].
  by rewrite H0.
Qed.

(** [shouldKeep] returns exactly when the rate is 1 or its low 32 bits
    are not all zero. *)
Lemma shouldKeep_returns_iff d rate :
  returned (shouldKeep d rate) ↔ rate = 1 ∨ uint32 rate ≠ 0.
Proof.
  split.
  - intros [b Hb]. destruct (decide (rate = 1)) as [|H1]; [by left|right].
    intros H0. by rewrite shouldKeep_zero_divisor in Hb.
  - intros [->|H0]; [by exists true|].
    destruct (decide (rate = 1)) as [->|H1]; [by exists true|].
    eexists. by apply shouldKeep_threshold.
Qed.

Lemma decideOnKey_rate table key d rate :
  table !! key = Some rate → rate ≠ 1 → uint32 rate ≠ 0 →
  decideOnKey table key d =
    Returns (Crc32.ChecksumIEEE (Crc32.bytes d) <? MaxUint32 / uint32 rate, rate).
Proof.
  intros Hk H1 H0. unfold decideOnKey. rewrite Hk.
  by rewrite shouldKeep_threshold.
Qed.


(** *** The check sum is a [uint32] *)

Lemma lxor_below_pow2 a b n :
  0 ≤ n → 0 ≤ a < 2 ^ n → 0 ≤ b < 2 ^ n → 0 ≤ Z.lxor a b < 2 ^ n.
Proof.
  intros Hn [Ha Ha'] [Hb Hb'].
  assert (Hx : 0 ≤ Z.lxor a b) by (apply Z.lxor_nonneg; tauto).
  split; [done|].
  destruct (decide (Z.lxor a b = 0)) as [->|Hne]; [lia|].
  assert (0 < n).
  { destruct (decide (n = 0)) as [->|]; [|lia].
    assert (a = 0) as -> by lia. assert (b = 0) as -> by lia. done. }
  apply Z.log2_lt_pow2; [lia|].
  pose proof (Z.log2_lxor a b Ha Hb) as Hl.
  assert (Z.log2 a < n).
  { destruct (decide (a = 0)) as [->|]; [simpl; lia|]. apply Z.log2_lt_pow2; lia. }
  assert (Z.log2 b < n).
  { destruct (decide (b = 0)) as [->|]; [simpl; lia|]. apply Z.log2_lt_pow2; lia. }
  lia.
Qed.

Lemma IEEETable_entries : Forall (λ e, 0 ≤ e < 2 ^ 32) Crc32.IEEETable.
Proof.
  apply Forall_forall. intros e He.
  apply (Forall_forall (λ e, (0 <=? e) && (e <? 2 ^ 32) = true) Crc32.IEEETable) in He.
  - apply andb_true_iff in He as [H1 H2]. lia.
  - apply Forall_fold_right. vm_compute. tauto.
Qed.

Lemma IEEETable_nth i : 0 ≤ nth i Crc32.IEEETable 0 < 2 ^ 32.
Proof.
  destruct (nth_in_or_default i Crc32.IEEETable 0) as [Hin | Heq].
  - apply list_elem_of_In in Hin.
    exact (proj1 (Forall_forall _ _) IEEETable_entries _ Hin).
  - rewrite Heq. lia.
Qed.

Lemma updateByte_range crc v :
  0 ≤ crc < 2 ^ 32 → 0 ≤ Crc32.updateByte Crc32.IEEETable crc v < 2 ^ 32.
Proof.
  intros Hc. unfold Crc32.updateByte.
  apply lxor_below_pow2; [lia|apply IEEETable_nth|].
  rewrite Z.shiftr_div_pow2 by lia. split.
  - apply Z.div_pos; lia.
  - apply Z.div_lt_upper_bound; lia.
Qed.

Lemma fold_updateByte_range data : ∀ crc,
  0 ≤ crc < 2 ^ 32 →
  0 ≤ fold_left (Crc32.updateByte Crc32.IEEETable) data crc < 2 ^ 32.
Proof.
  induction data as [|v rest IH]; intros crc Hc; simpl; [done|].
  apply IH. by apply updateByte_range.
Qed.

Lemma ChecksumIEEE_range data : 0 ≤ Crc32.ChecksumIEEE data < 2 ^ 32.
Proof.
  unfold Crc32.ChecksumIEEE, Crc32.simpleUpdate, Crc32.not32.
  apply lxor_below_pow2; [lia| |lia].
  apply fold_updateByte_range. apply lxor_below_pow2; lia.
Qed.

(** *** The table-driven check sum is the bit-by-bit CRC-32 *)

Lemma shiftStep_xor poly c :
  Crc32.shiftStep poly c =
    Z.lxor (Z.shiftr c 1) (if Z.testbit c 0 then poly else 0).
Proof.
  unfold Crc32.shiftStep.
  replace (Z.land c 1) with (Z.b2z (Z.testbit c 0)).
  - destruct (Z.testbit c 0); simpl; [done|]. by rewrite Z.lxor_0_r.
  - rewrite Z.bit0_mod. change 1 with (Z.ones 1). by rewrite Z.land_ones.
Qed.

(** A turn of the shift register is linear for exclusive or. *)
Lemma shiftStep_lxor poly a b :
  Crc32.shiftStep poly (Z.lxor a b) =
    Z.lxor (Crc32.shiftStep poly a) (Crc32.shiftStep poly b).
Proof.
  rewrite !shiftStep_xor, Z.shiftr_lxor, Z.lxor_spec.
  apply Z.bits_inj'. intros n Hn.
  destruct (Z.testbit a 0), (Z.testbit b 0); simpl;
    rewrite ?Z.lxor_spec, ?Z.bits_0;
    destruct (Z.testbit (Z.shiftr a 1) n), (Z.testbit (Z.shiftr b 1) n),
      (Z.testbit poly n); reflexivity.
Qed.

Lemma iter_shiftStep_lxor poly k a b :
  Nat.iter k (Crc32.shiftStep poly) (Z.lxor a b) =
    Z.lxor (Nat.iter k (Crc32.shiftStep poly) a) (Nat.iter k (Crc32.shiftStep poly) b).
Proof.
  induction k as [|k IH]; simpl; [done|]. by rewrite IH, shiftStep_lxor.
Qed.

(** Bits above the low [k] only move down in [k] turns. *)
Lemma iter_shiftStep_shiftl poly k h :
  Nat.iter k (Crc32.shiftStep poly) (Z.shiftl h (Z.of_nat k)) = h.
Proof.
  induction k as [|k IH]; [simpl; by rewrite Z.shiftl_0_r|].
  rewrite Nat.iter_succ_r, shiftStep_xor.
  rewrite Z.shiftl_spec_low by lia. rewrite Z.lxor_0_r.
  rewrite Z.shiftr_shiftl_l by lia.
  replace (Z.of_nat (S k) - 1) with (Z.of_nat k) by lia. done.
Qed.

Lemma split_low_byte x :
  x = Z.lxor (Z.land x 255) (Z.shiftl (Z.shiftr x 8) 8).
Proof.
  apply Z.bits_inj'. intros n Hn.
  rewrite Z.lxor_spec, Z.land_spec. change 255 with (Z.ones 8).
  rewrite Z.testbit_ones_nonneg by lia.
  destruct (Z.ltb_spec n 8) as [Hlt|Hge].
  - rewrite Z.shiftl_spec_low by lia.
    rewrite andb_true_r. by rewrite xorb_false_r.
  - rewrite Z.shiftl_spec by lia. rewrite Z.shiftr_spec by lia.
    replace (n - 8 + 8) with n by lia.
    by rewrite andb_false_r.
Qed.

Lemma iter_low_byte poly x :
  Nat.iter 8 (Crc32.shiftStep poly) x =
    Z.lxor (Crc32.tableEntry poly (Z.land x 255)) (Z.shiftr x 8).
Proof.
  unfold Crc32.tableEntry.
  transitivity (Nat.iter 8 (Crc32.shiftStep poly)
                  (Z.lxor (Z.land x 255) (Z.shiftl (Z.shiftr x 8) (Z.of_nat 8)))).
  - f_equal. apply split_low_byte.
  - by rewrite iter_shiftStep_lxor, iter_shiftStep_shiftl.
Qed.

Lemma IEEETable_lookup i :
  0 ≤ i < 256 →
  nth (Z.to_nat i) Crc32.IEEETable 0 = Crc32.tableEntry Crc32.IEEE i.
Proof.
  intros Hi.
  assert (Hall : forallb
            (λ j, nth j Crc32.IEEETable 0 =? Crc32.tableEntry Crc32.IEEE (Z.of_nat j))
            (seq 0 256) = true) by (vm_compute; reflexivity).
  rewrite forallb_forall in Hall.
  specialize (Hall (Z.to_nat i)). rewrite Z2Nat.id in Hall by lia.
  apply Z.eqb_eq, Hall, in_seq. lia.
Qed.

Lemma updateByte_bitwise crc v :
  0 ≤ v < 256 →
  Crc32.updateByte Crc32.IEEETable crc v = Crc32.bitwiseByte crc v.
Proof.
  intros Hv. unfold Crc32.updateByte, Crc32.bitwiseByte, Crc32.byte.
  assert (Hv8 : Z.shiftr v 8 = 0).
  { rewrite Z.shiftr_div_pow2 by lia. apply Z.div_small. lia. }
  assert (Hvl : Z.land v 255 = v).
  { change 255 with (Z.ones 8). rewrite Z.land_ones by lia. apply Z.mod_small. lia. }
  assert (Hlo : Z.lxor (Z.land crc 255) v = Z.land (Z.lxor crc v) 255).
  { rewrite <- Hvl at 1. apply Z.bits_inj'. intros n Hn.
    rewrite !Z.lxor_spec, !Z.land_spec, Z.lxor_spec.
    by destruct (Z.testbit crc n), (Z.testbit v n), (Z.testbit 255 n). }
  assert (Hhi : Z.shiftr crc 8 = Z.shiftr (Z.lxor crc v) 8).
  { by rewrite Z.shiftr_lxor, Hv8, Z.lxor_0_r. }
  rewrite Hlo, Hhi. set (x := Z.lxor crc v).
  rewrite (iter_low_byte Crc32.IEEE x).
  f_equal. apply IEEETable_lookup.
  change 255 with (Z.ones 8). rewrite Z.land_ones by lia.
  pose proof (Z.mod_pos_bound x (2 ^ 8) ltac:(lia)). lia.
Qed.

Lemma bytes_range d : Forall (λ v, 0 ≤ v < 256) (Crc32.bytes d).
Proof.
  unfold Crc32.bytes. apply Forall_forall. intros v Hv.
  apply list_elem_of_In, in_map_iff in Hv as [c [<- _]].
  pose proof (N_ascii_bounded c). lia.
Qed.

(** Go's table-driven [ChecksumIEEE] computes the CRC-32 of IEEE 802.3 as
    the bit-by-bit register defines it. *)
Lemma ChecksumIEEE_bitwise data :
  Forall (λ v, 0 ≤ v < 256) data →
  Crc32.ChecksumIEEE data = Crc32.bitwiseIEEE data.
Proof.
  intros Hdata. unfold Crc32.ChecksumIEEE, Crc32.simpleUpdate, Crc32.bitwiseIEEE.
  f_equal. generalize (Crc32.not32 0).
  induction Hdata as [|v rest Hv _ IH]; intros crc; simpl; [done|].
  by rewrite updateByte_bitwise, IH.
Qed.

(** *** The claims about the decision *)

(** The 32-bit check sum of a determinant, as line 38 computes it. *)
Abbreviation crc32 d := (Crc32.ChecksumIEEE (Crc32.bytes d)).

(** C1. When the sample key of a span maps to a rate [r] with
    [2 ≤ r < 2^32], [shouldSample] returns the pair
    [(CRC32-IEEE(d) < floor(MaxUint32 / r), r)], [d] being the span ID
    rendered as text; the check sum is the CRC-32 with the IEEE polynomial
    over the bytes of [d]. *)
Theorem C1_decide_hash_below_threshold s p σ r :
  rateTable σ (sampleRates s) !! sampleKey s p = Some r →
  2 ≤ r → r < 2 ^ 32 →
  let d := trace.String (trace.spanID (SpanContext p)) in
  result (shouldSample s p σ) = Returns (crc32 d <? MaxUint32 / r, r) ∧
  crc32 d = Crc32.bitwiseIEEE (Crc32.bytes d).
Proof.
  intros Hk H2 Hr d. split.
  - rewrite shouldSample_result.
    rewrite (decideOnKey_rate _ _ _ r Hk); rewrite ?uint32_small; try lia.
    reflexivity.
  - apply ChecksumIEEE_bitwise, bytes_range.
Qed.

Lemma C1_decide_hash_below_threshold_witness :
  result (shouldSample Scenario.sampler (Scenario.checkout Scenario.idCrcTenth)
            (Scenario.storeWithRate 10)) =
    Returns (crc32 "00000003b84edabd" <? MaxUint32 / 10, 10) ∧
  crc32 "00000003b84edabd" = Crc32.bitwiseIEEE (Crc32.bytes "00000003b84edabd").
Proof.
  apply (C1_decide_hash_below_threshold Scenario.sampler
           (Scenario.checkout Scenario.idCrcTenth) (Scenario.storeWithRate 10) 10).
  - vm_compute. reflexivity.
  - lia.
  - lia.
Defined.

(** The specification's first end-to-end scenario: the table
    [{"checkout": 10}], a span named "checkout" whose ID reads "abc123". Its
    check sum 3473062748 is not below [floor(MaxUint32 / 10) = 429496729]:
    the span is dropped. *)
Example scenario_checkout_abc123 :
  result (shouldSample Scenario.sampler
            (Scenario.checkout [Byte.xab; Byte.xc1; Byte.x23])
            (Scenario.storeWithRate 10)) = Returns (false, 10).
Proof. rewrite shouldSample_result. vm_compute. reflexivity. Qed.

(** C2. The decision is a function of the determinant and the rate: two
    calls that find the same rate [r ≥ 1] and use the same determinant
    [d] have the same outcome, whatever the samplers, the spans' names
    and attributes, the other entries of the tables and the stores; and
    when [r] fits 32 bits that outcome is a returned pair [(keep, r)]. *)
Theorem C2_decide_deterministic s1 s2 p1 p2 σ1 σ2 d r :
  1 ≤ r →
  rateTable σ1 (sampleRates s1) !! sampleKey s1 p1 = Some r →
  rateTable σ2 (sampleRates s2) !! sampleKey s2 p2 = Some r →
  determinant p1 = d → determinant p2 = d →
  result (shouldSample s1 p1 σ1) = result (shouldSample s2 p2 σ2) ∧
  (r < 2 ^ 32 → ∃ keep, result (shouldSample s1 p1 σ1) = Returns (keep, r)).
Proof.
  intros Hr H1 H2 Hd1 Hd2. rewrite !shouldSample_result.
  unfold decideOnKey. rewrite H1, H2, Hd1, Hd2. split; [done|].
  intros Hlt. destruct (shouldKeep_returns_iff d r) as [_ [keep Hkeep]].
  - right. rewrite uint32_small; lia.
  - exists keep. by rewrite Hkeep.
Qed.

Lemma C2_decide_deterministic_witness :
  result (shouldSample Scenario.sampler (Scenario.checkout Scenario.idCrcHalf)
            (Scenario.storeWithRate 10)) =
  result (shouldSample Scenario.sampler
            (Scenario.span "checkout"
               [ {| Key := "attempt"; Value := attribute.Int64Value 2 |} ]
               Scenario.idCrcHalf)
            (withFields (Scenario.storeWithRate 10) Scenario.shadowed)) ∧
  (10 < 2 ^ 32 →
   ∃ keep, result (shouldSample Scenario.sampler (Scenario.checkout Scenario.idCrcHalf)
                     (Scenario.storeWithRate 10)) = Returns (keep, 10)).
Proof.
  apply (C2_decide_deterministic _ _ _ _ _ _ "000000029619f26c" 10).
  - lia.
  - vm_compute. reflexivity.
  - vm_compute. reflexivity.
  - reflexivity.
  - reflexivity.
Defined.

(** C3. A span whose sample key is absent from the table, or maps to the
    rate 1, is kept with the reported rate 1, whatever its span ID. *)
Theorem C3_absent_or_rate_one_kept s p σ :
  rateTable σ (sampleRates s) !! sampleKey s p = None ∨
  rateTable σ (sampleRates s) !! sampleKey s p = Some 1 →
  result (shouldSample s p σ) = Returns (true, 1).
Proof.
  intros Hk. rewrite shouldSample_result. unfold decideOnKey.
  by destruct Hk as [-> | ->].
Qed.

Lemma C3_absent_or_rate_one_kept_witness :
  result (shouldSample Scenario.sampler (Scenario.span "login" [] Scenario.idCrcHalf)
            (Scenario.storeWithRate 10)) = Returns (true, 1) ∧
  result (shouldSample Scenario.sampler (Scenario.checkout Scenario.idCrcHalf)
            (Scenario.storeWithRate 1)) = Returns (true, 1).
Proof.
  split.
  - apply C3_absent_or_rate_one_kept. left. vm_compute. reflexivity.
  - apply C3_absent_or_rate_one_kept. right. vm_compute. reflexivity.
Defined.

(** C4, at the failing input. With the rate 0 stored for the span's key
    the division of line 37 has a zero divisor: the call panics and there
    is no decision, where the specification promises one for every rate. *)
Theorem C4_rate_zero_panics id :
  result (shouldSample Scenario.sampler (Scenario.checkout id) (Scenario.storeWithRate 0)) =
    Panics "runtime error: integer divide by zero".
Proof. rewrite shouldSample_result. reflexivity. Qed.

(** The calls that do return a decision: the key is absent, or the rate
    is 1, or its low 32 bits are not all zero. *)
Lemma shouldSample_returns_iff s p σ :
  returned (result (shouldSample s p σ)) ↔
  match rateTable σ (sampleRates s) !! sampleKey s p with
  | None => True
  | Some rate => rate = 1 ∨ uint32 rate ≠ 0
  end.
Proof.
  rewrite shouldSample_result. unfold decideOnKey.
  destruct (rateTable σ (sampleRates s) !! sampleKey s p) as [rate|].
  - rewrite <- (shouldKeep_returns_iff (determinant p) rate).
    destruct (shouldKeep (determinant p) rate) as [b|msg]; simpl.
    + split; intros _; eexists; reflexivity.
    + split; intros [? ?]; discriminate.
  - split; [done|]. intros _. by eexists.
Qed.

(** *** The threshold *)

Lemma MaxUint32_div_self : MaxUint32 / MaxUint32 = 1.
Proof. reflexivity. Qed.

Lemma threshold_positive u : 0 < u ≤ MaxUint32 → 1 ≤ MaxUint32 / u.
Proof.
  intros Hu. apply Z.div_le_lower_bound; lia.
Qed.

(** [floor((2^32 - 1) / r)] and [floor(2^32 / r)] differ exactly when [r]
    divides [2^32]. *)
Lemma threshold_vs_pow2 r :
  0 < r → 2 ^ 32 mod r ≠ 0 → MaxUint32 / r = 2 ^ 32 / r.
Proof.
  intros Hr Hm. unfold MaxUint32.
  pose proof (Z.div_mod (2 ^ 32) r ltac:(lia)) as Hdm.
  pose proof (Z.mod_pos_bound (2 ^ 32) r Hr) as Hb.
  symmetry. apply (Z.div_unique _ _ _ (2 ^ 32 mod r - 1)); lia.
Qed.

(** C5, at the input that refutes it. The rate [MaxUint32] is in the
    table, the span ID's text has check sum 0, and the span is kept. *)
Lemma C5_max_rate_keeps :
  rateTable (Scenario.storeWithRate 4294967295) (sampleRates Scenario.sampler)
    !! sampleKey Scenario.sampler (Scenario.checkout Scenario.idCrcZero) = Some 4294967295 ∧
  MaxUint32 ≤ 4294967295 ∧
  result (shouldSample Scenario.sampler (Scenario.checkout Scenario.idCrcZero)
            (Scenario.storeWithRate 4294967295)) = Returns (true, 4294967295).
Proof.
  split; [vm_compute; reflexivity|]. split; [unfold MaxUint32; lia|].
  rewrite shouldSample_result. vm_compute. reflexivity.
Qed.

(** C5, amended. For the rate [MaxUint32] the threshold is
    [floor(MaxUint32 / MaxUint32) = 1], not 0: [shouldSample] returns
    [(CRC32 < 1, MaxUint32)], so the span is kept exactly when the check
    sum of its determinant is 0, and dropped for every other determinant. *)
Theorem C5_max_rate_threshold s p σ :
  rateTable σ (sampleRates s) !! sampleKey s p = Some MaxUint32 →
  MaxUint32 / MaxUint32 = 1 ∧
  result (shouldSample s p σ) =
    Returns (crc32 (determinant p) <? MaxUint32 / MaxUint32, MaxUint32) ∧
  (result (shouldSample s p σ) = Returns (true, MaxUint32) ↔
   crc32 (determinant p) = 0) ∧
  (result (shouldSample s p σ) = Returns (false, MaxUint32) ↔
   crc32 (determinant p) ≠ 0).
Proof.
  intros Hk.
  assert (Hres : result (shouldSample s p σ) =
            Returns (crc32 (determinant p) <? MaxUint32 / MaxUint32, MaxUint32)).
  { rewrite shouldSample_result.
    rewrite (decideOnKey_rate _ _ _ MaxUint32 Hk); [|done|done].
    by rewrite uint32_small. }
  split; [apply MaxUint32_div_self|]. split; [done|].
  rewrite Hres, MaxUint32_div_self.
  pose proof (ChecksumIEEE_range (Crc32.bytes (determinant p))) as Hc.
  destruct (Z.ltb_spec (crc32 (determinant p)) 1) as [Hlt|Hge].
  - split; split; [lia|done|discriminate|lia].
  - split; split; [discriminate|lia|lia|done].
Qed.

Lemma C5_max_rate_threshold_witness :
  MaxUint32 / MaxUint32 = 1 ∧
  result (shouldSample Scenario.sampler (Scenario.checkout Scenario.idCrcHalf)
            (Scenario.storeWithRate 4294967295)) =
    Returns (crc32 (determinant (Scenario.checkout Scenario.idCrcHalf))
               <? MaxUint32 / MaxUint32, MaxUint32) ∧
  (result (shouldSample Scenario.sampler (Scenario.checkout Scenario.idCrcHalf)
             (Scenario.storeWithRate 4294967295)) = Returns (true, MaxUint32) ↔
   crc32 (determinant (Scenario.checkout Scenario.idCrcHalf)) = 0) ∧
  (result (shouldSample Scenario.sampler (Scenario.checkout Scenario.idCrcHalf)
             (Scenario.storeWithRate 4294967295)) = Returns (false, MaxUint32) ↔
   crc32 (determinant (Scenario.checkout Scenario.idCrcHalf)) ≠ 0).
Proof.
  apply (C5_max_rate_threshold Scenario.sampler
           (Scenario.checkout Scenario.idCrcHalf) (Scenario.storeWithRate 4294967295)).
  vm_compute. reflexivity.
Defined.

(** C6, at the input that refutes it. For the rate 2 the claimed
    threshold is [floor(2^32 / 2) = 2^31]; the span ID's text has check
    sum [2^31 - 1], below it, and the span is dropped all the same. *)
Lemma C6_threshold_is_not_pow2_quotient :
  rateTable (Scenario.storeWithRate 2) (sampleRates Scenario.sampler)
    !! sampleKey Scenario.sampler (Scenario.checkout Scenario.idCrcHalf) = Some 2 ∧
  crc32 (determinant (Scenario.checkout Scenario.idCrcHalf)) = 2147483647 ∧
  (2147483647 <? 2 ^ 32 / 2) = true ∧
  result (shouldSample Scenario.sampler (Scenario.checkout Scenario.idCrcHalf)
            (Scenario.storeWithRate 2)) = Returns (false, 2).
Proof.
  split; [vm_compute; reflexivity|]. split; [vm_compute; reflexivity|].
  split; [reflexivity|].
  rewrite shouldSample_result. vm_compute. reflexivity.
Qed.

(** C6, amended. For a rate [r] with [2 ≤ r < 2^32] the threshold the
    sampler compares against is [floor((2^32 - 1) / r)], that is
    [floor(MaxUint32 / r)]; it equals [floor(2^32 / r)] unless [r] divides
    [2^32]. The keep boundary is exclusive: a determinant whose check sum
    equals the threshold is dropped. *)
Theorem C6_threshold_boundary s p σ r :
  rateTable σ (sampleRates s) !! sampleKey s p = Some r →
  2 ≤ r → r < 2 ^ 32 →
  result (shouldSample s p σ) =
    Returns (crc32 (determinant p) <? (2 ^ 32 - 1) / r, r) ∧
  (crc32 (determinant p) = (2 ^ 32 - 1) / r →
   result (shouldSample s p σ) = Returns (false, r)) ∧
  (2 ^ 32 mod r ≠ 0 → (2 ^ 32 - 1) / r = 2 ^ 32 / r).
Proof.
  intros Hk H2 Hr.
  assert (Hres : result (shouldSample s p σ) =
            Returns (crc32 (determinant p) <? (2 ^ 32 - 1) / r, r)).
  { rewrite shouldSample_result.
    rewrite (decideOnKey_rate _ _ _ r Hk); rewrite ?uint32_small; try lia.
    reflexivity. }
  split; [done|]. split.
  - intros Heq. rewrite Hres, Heq, Z.ltb_irrefl. reflexivity.
  - intros Hm. apply (threshold_vs_pow2 r); [lia|done].
Qed.

Lemma C6_threshold_boundary_witness :
  result (shouldSample Scenario.sampler (Scenario.checkout Scenario.idCrcHalf)
            (Scenario.storeWithRate 2)) =
    Returns (crc32 (determinant (Scenario.checkout Scenario.idCrcHalf))
               <? (2 ^ 32 - 1) / 2, 2) ∧
  (crc32 (determinant (Scenario.checkout Scenario.idCrcHalf)) = (2 ^ 32 - 1) / 2 →
   result (shouldSample Scenario.sampler (Scenario.checkout Scenario.idCrcHalf)
             (Scenario.storeWithRate 2)) = Returns (false, 2)) ∧
  (2 ^ 32 mod 2 ≠ 0 → (2 ^ 32 - 1) / 2 = 2 ^ 32 / 2).
Proof.
  apply (C6_threshold_boundary Scenario.sampler
           (Scenario.checkout Scenario.idCrcHalf) (Scenario.storeWithRate 2) 2).
  - vm_compute. reflexivity.
  - lia.
  - lia.
Defined.

(** *** The fields map *)

Lemma fold_putAttr_lookup attrs : ∀ (m : gmap string any) k,
  fold_left putAttr attrs m !! k =
    match lastWithKey k attrs with
    | Some a => Some (attribute.AsInterface (Value a))
    | None => m !! k
    end.
Proof.
  unfold lastWithKey.
  induction attrs as [|a rest IH]; intros m k; simpl; [done|].
  rewrite IH, filter_cons. unfold putAttr at 1.
  destruct (decide (Key a = k)) as [<-|Hne].
  - rewrite lookup_insert_eq, last_cons.
    by destruct (last (filter (λ a0, Key a0 = Key a) rest)).
  - by rewrite lookup_insert_ne.
Qed.

Lemma lastWithKey_None k attrs : lastWithKey k attrs = None ↔ k ∉ Key <$> attrs.
Proof.
  unfold lastWithKey. rewrite last_None. split.
  - intros Hf [a [-> Ha]]%list_elem_of_fmap.
    assert (a ∈ filter (λ a0, Key a0 = Key a) attrs) as Hin
      by (by apply list_elem_of_filter).
    rewrite Hf in Hin. by apply not_elem_of_nil in Hin.
  - intros Hk. destruct (filter (λ a, Key a = k) attrs) as [|a l] eqn:Hf; [done|].
    assert (a ∈ filter (λ a, Key a = k) attrs) as Hin by (rewrite Hf; left).
    apply list_elem_of_filter in Hin as [<- Hin].
    destruct Hk. apply list_elem_of_fmap. by exists a.
Qed.

Lemma lastWithKey_NoDup attrs a :
  NoDup (Key <$> attrs) → a ∈ attrs → lastWithKey (Key a) attrs = Some a.
Proof.
  unfold lastWithKey.
  induction attrs as [|b rest IH]; intros Hnd Ha; [by apply not_elem_of_nil in Ha|].
  rewrite fmap_cons in Hnd. apply NoDup_cons in Hnd as [Hb Hnd].
  rewrite filter_cons. apply elem_of_cons in Ha as [->|Ha].
  - rewrite decide_True by done.
    apply lastWithKey_None in Hb. unfold lastWithKey in Hb.
    apply last_None in Hb. by rewrite Hb.
  - rewrite decide_False.
    + by apply IH.
    + intros Heq. apply Hb. rewrite Heq. apply list_elem_of_fmap. by exists a.
Qed.

Lemma fold_putAttr_size attrs : ∀ m : gmap string any,
  NoDup (Key <$> attrs) → (∀ k, k ∈ Key <$> attrs → m !! k = None) →
  size (fold_left putAttr attrs m) = (length attrs + size m)%nat.
Proof.
  induction attrs as [|a rest IH]; intros m Hnd Hm; simpl; [done|].
  rewrite fmap_cons in Hnd. apply NoDup_cons in Hnd as [Ha Hnd].
  rewrite IH; [|done|].
  - unfold putAttr. rewrite map_size_insert_None; [lia|].
    apply Hm. rewrite fmap_cons. left.
  - intros k Hk. unfold putAttr. rewrite lookup_insert_ne.
    + apply Hm. rewrite fmap_cons. by right.
    + intros <-. done.
Qed.

(** The map that line 23 hands to the key function is the one the call
    leaves at its new address. *)
Lemma buildFields_run s p σ :
  fieldMaps (final (shouldSample s p σ)) !! fresh (dom (fieldMaps σ)) = Some (spanFields p).
Proof.
  rewrite shouldSample_final. unfold withFields. simpl.
  by rewrite lookup_insert_eq.
Qed.

Lemma spanFields_name p : spanFields p !! "name" = Some (AnyString (Name p)).
Proof. unfold spanFields. by rewrite lookup_insert_eq. Qed.

Lemma spanFields_other p k :
  k ≠ "name" →
  spanFields p !! k =
    (λ a, attribute.AsInterface (Value a)) <$> lastWithKey k (Attributes p).
Proof.
  intros Hk. unfold spanFields. rewrite lookup_insert_ne by done.
  rewrite fold_putAttr_lookup. by destruct (lastWithKey k (Attributes p)).
Qed.

(** C7, at the input that refutes it. The span has three attributes; the
    map handed to the key function has two entries. The attribute
    [http.status = 200] has no entry of its value (a later attribute of
    the same key replaced it), nor has the attribute named "name". *)
Lemma C7_not_one_entry_per_attribute :
  ∃ fields : gmap string any,
    fieldMaps (final (shouldSample Scenario.sampler Scenario.shadowed (Scenario.storeWithRate 10)))
      !! fresh (dom (fieldMaps (Scenario.storeWithRate 10))) = Some fields ∧
    fields = {[ "http.status" := AnyInt64 500; "name" := AnyString "GET /help" ]} ∧
    {| Key := "http.status"; Value := attribute.Int64Value 200 |} ∈ Attributes Scenario.shadowed ∧
    fields !! "http.status" ≠ Some (attribute.AsInterface (attribute.Int64Value 200)) ∧
    {| Key := "name"; Value := attribute.StringValue "from-attribute" |} ∈ Attributes Scenario.shadowed ∧
    fields !! "name" ≠ Some (attribute.AsInterface (attribute.StringValue "from-attribute")) ∧
    length (Attributes Scenario.shadowed) = 3%nat ∧ size fields = 2%nat.
Proof.
  eexists. split; [apply buildFields_run|].
  split; [vm_compute; reflexivity|].
  split; [left|]. split; [vm_compute; discriminate|].
  split; [right; left|]. split; [vm_compute; discriminate|].
  split; [reflexivity|]. vm_compute. reflexivity.
Qed.

(** C7, amended. The key looked up in the table is [sampleKeyFunc] applied
    to a fields map in which "name" holds the span's display name and
    every other attribute key holds the value of the last attribute with
    that key, and which has no other key. When the attribute keys are
    pairwise distinct and none is "name", that is one entry per attribute,
    plus the entry "name". *)
Theorem C7_key_from_fields s p σ :
  ∃ fields : gmap string any,
    fieldMaps (final (shouldSample s p σ)) !! fresh (dom (fieldMaps σ)) = Some fields ∧
    result (shouldSample s p σ) =
      decideOnKey (rateTable σ (sampleRates s)) (sampleKeyFunc s fields)
        (trace.String (trace.spanID (SpanContext p))) ∧
    fields !! "name" = Some (AnyString (Name p)) ∧
    (∀ k, k ≠ "name" →
       fields !! k =
         (λ a, attribute.AsInterface (Value a)) <$> lastWithKey k (Attributes p)) ∧
    (∀ k, is_Some (fields !! k) ↔ k = "name" ∨ k ∈ Key <$> Attributes p) ∧
    (NoDup (Key <$> Attributes p) → "name" ∉ Key <$> Attributes p →
       (∀ a, a ∈ Attributes p →
          fields !! Key a = Some (attribute.AsInterface (Value a))) ∧
       size fields = S (length (Attributes p))).
Proof.
  exists (spanFields p).
  split; [apply buildFields_run|]. split; [apply shouldSample_result|].
  split; [apply spanFields_name|]. split; [intros k; apply spanFields_other|].
  split.
  - intros k. destruct (decide (k = "name")) as [->|Hk].
    + rewrite spanFields_name. split; [by left|by eexists].
    + rewrite spanFields_other by done. rewrite fmap_is_Some.
      rewrite <- not_eq_None_Some, lastWithKey_None. split.
      * intros Hin. right. by apply dec_stable.
      * intros [?|Hin]; [done|]. by intros Hn.
  - intros Hnd Hname. split.
    + intros a Ha. rewrite spanFields_other.
      * by rewrite (lastWithKey_NoDup _ _ Hnd Ha).
      * intros Heq. apply Hname. rewrite <- Heq. apply list_elem_of_fmap. by exists a.
    + unfold spanFields. rewrite map_size_insert_None.
      * rewrite fold_putAttr_size; [by rewrite map_size_empty, Nat.add_0_r|done|].
        intros k _. apply lookup_empty.
      * rewrite fold_putAttr_lookup, lookup_empty.
        by apply lastWithKey_None in Hname as ->.
Qed.

(** *** The store after a call *)

Lemma withFields_rateMaps σ p : rateMaps (withFields σ p) = rateMaps σ.
Proof. reflexivity. Qed.

Lemma withFields_fieldMaps σ p l m :
  fieldMaps σ !! l = Some m → fieldMaps (withFields σ p) !! l = Some m.
Proof.
  intros Hl. unfold withFields; simpl. rewrite lookup_insert_ne; [done|].
  intros <-. apply (is_fresh (dom (fieldMaps σ))).
  apply elem_of_dom. by eexists.
Qed.

Lemma sampleAll_cons_run s p rest σ :
  sampleAll s (p :: rest) σ =
    match decideOnKey (rateTable σ (sampleRates s)) (sampleKey s p) (determinant p) with
    | Returns d =>
        match sampleAll s rest (withFields σ p) with
        | (Returns ds, σ') => (Returns (d :: ds), σ')
        | (Panics msg, σ') => (Panics msg, σ')
        end
    | Panics msg => (Panics msg, withFields σ p)
    end.
Proof.
  change (sampleAll s (p :: rest) σ) with
    (M_bind _ _ (λ d, ds ← sampleAll s rest; mret (d :: ds)) (shouldSample s p) σ).
  unfold M_bind at 1. rewrite shouldSample_run.
  destruct (decideOnKey _ _ _) as [d|msg]; [|done].
  unfold mbind, M_bind.
  by destruct (sampleAll s rest (withFields σ p)) as [[ds|msg] σ'].
Qed.

Lemma sampleAll_frame s ps : ∀ σ,
  rateMaps (final (sampleAll s ps σ)) = rateMaps σ ∧
  (∀ l m, fieldMaps σ !! l = Some m →
          fieldMaps (final (sampleAll s ps σ)) !! l = Some m).
Proof.
  induction ps as [|p rest IH]; intros σ; [done|].
  rewrite sampleAll_cons_run.
  destruct (decideOnKey _ _ _) as [d|msg].
  - destruct (IH (withFields σ p)) as [Hr Hf]. unfold final in *.
    destruct (sampleAll s rest (withFields σ p)) as [[ds|msg] σ']; simpl in *.
    + split; [done|]. intros l m Hl. by apply Hf, (withFields_fieldMaps σ p).
    + split; [done|]. intros l m Hl. by apply Hf, (withFields_fieldMaps σ p).
  - split; [done|]. intros l m Hl. by apply withFields_fieldMaps.
Qed.

(** C8. A call of [shouldSample], and any sequence of calls, leaves the
    [map[string]uint] objects of the store as they were, among them the
    sampler's table; the [map[string]any] objects that existed before are
    untouched as well (each call writes only to the map it allocates); the
    sampler itself is a value the call cannot change. A call made
    afterwards therefore decides as it would have decided before. *)
Theorem C8_configuration_unchanged s ps σ :
  rateMaps (final (sampleAll s ps σ)) = rateMaps σ ∧
  rateTable (final (sampleAll s ps σ)) (sampleRates s) = rateTable σ (sampleRates s) ∧
  (∀ l m, fieldMaps σ !! l = Some m →
          fieldMaps (final (sampleAll s ps σ)) !! l = Some m) ∧
  (∀ p, final (shouldSample s p σ) =
          Store (<[fresh (dom (fieldMaps σ)) := spanFields p]> (fieldMaps σ)) (rateMaps σ)) ∧
  (∀ p, result (shouldSample s p (final (sampleAll s ps σ))) =
        result (shouldSample s p σ)).
Proof.
  destruct (sampleAll_frame s ps σ) as [Hr Hf].
  assert (Ht : rateTable (final (sampleAll s ps σ)) (sampleRates s) =
               rateTable σ (sampleRates s)) by (unfold rateTable; by rewrite Hr).
  split; [done|]. split; [done|]. split; [done|]. split.
  - intros p. apply shouldSample_final.
  - intros p. by rewrite !shouldSample_result, Ht.
Qed.

(** *** Attributes named "name" *)

Lemma setNameValue_Key v a : Key (setNameValue v a) = Key a.
Proof. unfold setNameValue. by destruct (decide (Key a = "name")). Qed.

Lemma setNameValue_other v a : Key a ≠ "name" → setNameValue v a = a.
Proof. intros Hn. unfold setNameValue. by rewrite decide_False. Qed.

Lemma lastWithKey_setNameValue v k attrs :
  k ≠ "name" → lastWithKey k (setNameValue v <$> attrs) = lastWithKey k attrs.
Proof.
  intros Hk. unfold lastWithKey. f_equal.
  induction attrs as [|a rest IH]; [done|].
  rewrite fmap_cons, !filter_cons, IH, setNameValue_Key.
  destruct (decide (Key a = k)) as [Heq|Hne]; [|done].
  rewrite setNameValue_other; [done|congruence].
Qed.

Lemma spanFields_setNameValues v p :
  spanFields (setNameValues v p) = spanFields p.
Proof.
  apply map_eq. intros k. destruct (decide (k = "name")) as [->|Hk].
  - by rewrite !spanFields_name.
  - rewrite !spanFields_other by done. simpl.
    by rewrite lastWithKey_setNameValue.
Qed.

(** C10. When an attribute of the span is keyed "name", the fields map
    handed to the key function holds the span's display name under
    "name"; the attribute's value is not observed: replacing the value of
    every attribute keyed "name" by any other value changes neither that
    map, nor the decision, nor the store the call leaves. *)
Theorem C10_name_attribute_overwritten s p σ attr :
  attr ∈ Attributes p → Key attr = "name" →
  ∃ fields : gmap string any,
    fieldMaps (final (shouldSample s p σ)) !! fresh (dom (fieldMaps σ)) = Some fields ∧
    result (shouldSample s p σ) =
      decideOnKey (rateTable σ (sampleRates s)) (sampleKeyFunc s fields) (determinant p) ∧
    fields !! "name" = Some (AnyString (Name p)) ∧
    ∀ v, shouldSample s (setNameValues v p) σ = shouldSample s p σ.
Proof.
  intros _ _. exists (spanFields p).
  split; [apply buildFields_run|]. split; [apply shouldSample_result|].
  split; [apply spanFields_name|].
  intros v. rewrite !shouldSample_run. unfold withFields, sampleKey, determinant.
  by rewrite spanFields_setNameValues.
Qed.

Lemma C10_name_attribute_overwritten_witness :
  ∃ fields : gmap string any,
    fieldMaps (final (shouldSample Scenario.sampler Scenario.shadowed (Scenario.storeWithRate 10)))
      !! fresh (dom (fieldMaps (Scenario.storeWithRate 10))) = Some fields ∧
    result (shouldSample Scenario.sampler Scenario.shadowed (Scenario.storeWithRate 10)) =
      decideOnKey (rateTable (Scenario.storeWithRate 10) (sampleRates Scenario.sampler))
        (sampleKeyFunc Scenario.sampler fields) (determinant Scenario.shadowed) ∧
    fields !! "name" = Some (AnyString (Name Scenario.shadowed)) ∧
    ∀ v, shouldSample Scenario.sampler (setNameValues v Scenario.shadowed)
           (Scenario.storeWithRate 10) =
         shouldSample Scenario.sampler Scenario.shadowed (Scenario.storeWithRate 10).
Proof.
  apply (C10_name_attribute_overwritten Scenario.sampler Scenario.shadowed
           (Scenario.storeWithRate 10)
           {| Key := "name"; Value := attribute.StringValue "from-attribute" |}).
  - right. left.
  - reflexivity.
Defined.

End SamplerSpec.

(** ** The facade *)

Module FacadeSpec.
Import O11y.

Section Fallback.

Context {World any : Type}.
Variable backendProviders : nat → ProviderMethods.t World any.
Variable backendSpans : nat → SpanMethods.t World any.

Lemma Value_without_provider (ctx : context.Context any) :
  builtWithoutProvider ctx → context.Value ctx providerKey = context.nilVal.
Proof.
  induction ctx as [|parent IH key v]; simpl; [done|].
  intros [Hkey Hparent]. rewrite decide_False by done. by apply IH.
Qed.

Lemma FromContext_without_provider (ctx : context.Context any) :
  builtWithoutProvider ctx → FromContext ctx = defaultProvider.
Proof.
  intros Hctx. unfold FromContext. by rewrite Value_without_provider.
Qed.

(** What [WithProvider] stores is what [FromContext] finds; a nil
    provider falls back to the default. *)
Lemma FromContext_WithProvider (ctx : context.Context any) p :
  FromContext (WithProvider ctx p) = default defaultProvider p.
Proof. unfold FromContext, WithProvider; simpl. by destruct p. Qed.

Lemma FromContext_foreign (ctx : context.Context any) name v :
  FromContext (context.WithValue ctx (foreignKey name) v) = FromContext ctx.
Proof. reflexivity. Qed.

(** C9. In a context in which no provider was stored with
    [WithProvider], [FromContext] returns the package's no-op provider.
    So [StartSpan] returns the context it was given, leaves the
    backend's state alone and hands out a span whose [AddField] and
    [End] do nothing; [AddField] and [AddFieldToTrace] do nothing, and
    neither does [Log] on the provider of the context. *)
Theorem C9_noop_fallback (ctx : context.Context any) :
  builtWithoutProvider ctx →
  FromContext ctx = defaultProvider ∧
  providerMethods backendProviders (FromContext ctx) = noopProvider ∧
  (∀ name w, ∃ span,
     StartSpan backendProviders ctx name w = ((ctx, span), w) ∧
     (∀ key val w', SpanMethods.AddField (spanMethods backendSpans span) key val w' = w') ∧
     (∀ w', SpanMethods.End_ (spanMethods backendSpans span) w' = w')) ∧
  (∀ key val w, AddField backendProviders ctx key val w = w) ∧
  (∀ key val w, AddFieldToTrace backendProviders ctx key val w = w) ∧
  (∀ name fields w,
     ProviderMethods.Log (providerMethods backendProviders (FromContext ctx))
       ctx name fields w = w).
Proof.
  intros Hctx. pose proof (FromContext_without_provider ctx Hctx) as Hp.
  split; [done|]. split; [by rewrite Hp|]. split; [|split; [|split]].
  - intros name w. exists noopSpanPtr. unfold StartSpan. rewrite Hp. done.
  - intros key val w. unfold AddField. by rewrite Hp.
  - intros key val w. unfold AddFieldToTrace. by rewrite Hp.
  - intros name fields w. by rewrite Hp.
Qed.

End Fallback.

Lemma C9_noop_fallback_witness :
  FromContext FacadeScenario.requestCtx = defaultProvider ∧
  providerMethods FacadeScenario.countingProviders (FromContext FacadeScenario.requestCtx)
    = noopProvider ∧
  (∀ name w, ∃ span,
     StartSpan FacadeScenario.countingProviders FacadeScenario.requestCtx name w
       = ((FacadeScenario.requestCtx, span), w) ∧
     (∀ key val w',
        SpanMethods.AddField (spanMethods FacadeScenario.countingSpans span) key val w' = w') ∧
     (∀ w', SpanMethods.End_ (spanMethods FacadeScenario.countingSpans span) w' = w')) ∧
  (∀ key val w,
     AddField FacadeScenario.countingProviders FacadeScenario.requestCtx key val w = w) ∧
  (∀ key val w,
     AddFieldToTrace FacadeScenario.countingProviders FacadeScenario.requestCtx key val w = w) ∧
  (∀ name fields w,
     ProviderMethods.Log
       (providerMethods FacadeScenario.countingProviders (FromContext FacadeScenario.requestCtx))
       FacadeScenario.requestCtx name fields w = w).
Proof.
  apply (C9_noop_fallback FacadeScenario.countingProviders FacadeScenario.countingSpans
           FacadeScenario.requestCtx).
  simpl. split; [discriminate|exact I].
Defined.

(** With a backend stored in the context the facade does reach it: the
    fallback is what makes the calls above no-ops, not the facade. *)
Example AddField_reaches_backend :
  AddField FacadeScenario.countingProviders
    (WithProvider FacadeScenario.requestCtx (Some (backendProvider 0))) "result" "ok"%string 0%nat
  = 1%nat.
Proof. reflexivity. Qed.

End FacadeSpec.

(** ** The sampler, further properties *)

Module SamplerMore.
Import Otel.
Import SamplerSpec.

(** X1. For a span whose sample key the key function has computed and the
    table maps to a rate, [shouldSample] fails only by the division of line
    37: it panics, with the run-time's division error, exactly when that
    rate is not 1 and has its low 32 bits all zero (0, or a multiple of
    [2^32]), and it returns a decision exactly in the other case. *)
Theorem X1_panics_iff_zero_divisor s p σ rate :
  rateTable σ (sampleRates s) !! sampleKey s p = Some rate →
  (result (shouldSample s p σ) = Panics "runtime error: integer divide by zero" ↔
   rate ≠ 1 ∧ uint32 rate = 0) ∧
  (returned (result (shouldSample s p σ)) ↔ rate = 1 ∨ uint32 rate ≠ 0).
Proof.
  intros Hk. rewrite shouldSample_result. unfold decideOnKey. rewrite Hk.
  destruct (decide (rate = 1)) as [->|H1].
  - rewrite shouldKeep_one. simpl. split; split.
    + discriminate.
    + intros [Hne _]. done.
    + intros _. by left.
    + intros _. by eexists.
  - destruct (decide (uint32 rate = 0)) as [H0|H0].
    + rewrite shouldKeep_zero_divisor by done. simpl. split; split.
      * done.
      * done.
      * intros [d Hd]. discriminate.
      * intros [?|?]; done.
    + rewrite shouldKeep_threshold by done. simpl. split; split.
      * discriminate.
      * intros [_ Hz]. done.
      * intros _. by right.
      * intros _. by eexists.
Qed.

Lemma X1_panics_iff_zero_divisor_witness :
  (result (shouldSample Scenario.sampler (Scenario.checkout Scenario.idCrcZero)
             (Scenario.storeWithRate (2 ^ 32)))
     = Panics "runtime error: integer divide by zero" ↔
   2 ^ 32 ≠ 1 ∧ uint32 (2 ^ 32) = 0) ∧
  (returned (result (shouldSample Scenario.sampler (Scenario.checkout Scenario.idCrcZero)
                       (Scenario.storeWithRate (2 ^ 32)))) ↔
   2 ^ 32 = 1 ∨ uint32 (2 ^ 32) ≠ 0).
Proof.
  apply (X1_panics_iff_zero_divisor Scenario.sampler
           (Scenario.checkout Scenario.idCrcZero) (Scenario.storeWithRate (2 ^ 32))
           (2 ^ 32)).
  vm_compute. reflexivity.
Defined.

(** X2. The rate a returning call reports is the rate stored for the
    span's key, or 1 when the key is absent; and a reported rate of 1
    always comes with keep. *)
Theorem X2_reported_rate s p σ keep used :
  result (shouldSample s p σ) = Returns (keep, used) →
  used = default 1 (rateTable σ (sampleRates s) !! sampleKey s p) ∧
  (used = 1 → keep = true).
Proof.
  rewrite shouldSample_result. unfold decideOnKey.
  destruct (rateTable σ (sampleRates s) !! sampleKey s p) as [rate|]; simpl.
  - destruct (shouldKeep (determinant p) rate) as [b|msg] eqn:Hb; simpl; [|discriminate].
    intros [= <- <-]. split; [done|]. intros ->. by rewrite shouldKeep_one in Hb; injection Hb.
  - intros [= <- <-]. done.
Qed.

Lemma X2_reported_rate_witness :
  10 = default 1 (rateTable (Scenario.storeWithRate 10) (sampleRates Scenario.sampler)
                    !! sampleKey Scenario.sampler (Scenario.checkout Scenario.idCrcZero)) ∧
  (10 = 1 → true = true).
Proof.
  apply (X2_reported_rate Scenario.sampler (Scenario.checkout Scenario.idCrcZero)
           (Scenario.storeWithRate 10) true 10).
  vm_compute. reflexivity.
Defined.

(** X3. Keeping is monotone in the rate: a determinant kept at a rate [r2]
    is kept at every smaller rate [r1 ≥ 1], for rates that fit 32 bits. *)
Theorem X3_keep_monotone_in_rate d r1 r2 :
  1 ≤ r1 → r1 ≤ r2 → r2 < 2 ^ 32 →
  shouldKeep d r2 = Returns true → shouldKeep d r1 = Returns true.
Proof.
  intros H1 H12 H2 Hkeep.
  destruct (decide (r1 = 1)) as [->|Hr1]; [apply shouldKeep_one|].
  rewrite shouldKeep_threshold in Hkeep; rewrite ?uint32_small; try lia.
  rewrite shouldKeep_threshold; rewrite ?uint32_small; try lia.
  rewrite uint32_small in Hkeep by lia. injection Hkeep as Hlt.
  f_equal. apply Z.ltb_lt in Hlt. apply Z.ltb_lt.
  eapply Z.lt_le_trans; [exact Hlt|].
  apply Z.div_le_compat_l; [unfold MaxUint32; lia|lia].
Qed.

Lemma X3_keep_monotone_in_rate_witness :
  shouldKeep "00000003b84edabd" 3 = Returns true.
Proof.
  apply (X3_keep_monotone_in_rate "00000003b84edabd" 3 4).
  - lia.
  - lia.
  - lia.
  - vm_compute. reflexivity.
Defined.

(** X4. Only the low 32 bits of a rate other than 1 count: two such rates
    that agree on them decide alike, panic included. So on a 64-bit
    platform the rate [2^32 + 2] samples like the rate 2. *)
Theorem X4_rate_low_bits d r r' :
  r ≠ 1 → r' ≠ 1 → uint32 r = uint32 r' →
  shouldKeep d r = shouldKeep d r'.
Proof.
  intros Hr Hr' Heq.
  destruct (decide (uint32 r = 0)) as [H0|H0].
  - rewrite !shouldKeep_zero_divisor; congruence.
  - rewrite !shouldKeep_threshold; congruence.
Qed.

Lemma X4_rate_low_bits_witness :
  shouldKeep "000000029619f26c" (2 ^ 32 + 2) = shouldKeep "000000029619f26c" 2.
Proof.
  apply (X4_rate_low_bits "000000029619f26c" (2 ^ 32 + 2) 2).
  - lia.
  - lia.
  - vm_compute. reflexivity.
Defined.

(** X5. For every rate [r] with [2 ≤ r < 2^32] the threshold lies between
    1 and [2^31 - 1]: a determinant whose check sum is 0 is kept, and one
    whose check sum is [2^31 - 1] or more is dropped, whatever the rate. *)
Theorem X5_threshold_bounds d r :
  2 ≤ r → r < 2 ^ 32 →
  1 ≤ MaxUint32 / uint32 r ≤ 2 ^ 31 - 1 ∧
  (Crc32.ChecksumIEEE (Crc32.bytes d) = 0 → shouldKeep d r = Returns true) ∧
  (2 ^ 31 - 1 ≤ Crc32.ChecksumIEEE (Crc32.bytes d) → shouldKeep d r = Returns false).
Proof.
  intros H2 Hr. rewrite uint32_small by lia.
  assert (Hb : 1 ≤ MaxUint32 / r ≤ 2 ^ 31 - 1).
  { split.
    - apply threshold_positive. unfold MaxUint32. lia.
    - transitivity (MaxUint32 / 2); [|reflexivity].
      apply Z.div_le_compat_l; [unfold MaxUint32; lia|lia]. }
  split; [done|].
  rewrite shouldKeep_threshold; rewrite ?uint32_small; try lia.
  split; intros Hc; f_equal.
  - apply Z.ltb_lt. lia.
  - apply Z.ltb_ge. lia.
Qed.

Lemma X5_threshold_bounds_witness :
  1 ≤ MaxUint32 / uint32 7 ≤ 2 ^ 31 - 1 ∧
  (Crc32.ChecksumIEEE (Crc32.bytes "0000000051f5250c") = 0 →
   shouldKeep "0000000051f5250c" 7 = Returns true) ∧
  (2 ^ 31 - 1 ≤ Crc32.ChecksumIEEE (Crc32.bytes "0000000051f5250c") →
   shouldKeep "0000000051f5250c" 7 = Returns false).
Proof.
  apply (X5_threshold_bounds "0000000051f5250c" 7); lia.
Defined.

(** *** The fields map and the order of the attributes *)

Lemma lastWithKey_Some_elem k attrs a :
  lastWithKey k attrs = Some a → a ∈ attrs ∧ Key a = k.
Proof.
  unfold lastWithKey. intros Hl. apply last_Some_elem_of in Hl.
  apply list_elem_of_filter in Hl as [Hk Ha]. done.
Qed.

Lemma lastWithKey_Permutation k attrs attrs' :
  NoDup (Key <$> attrs) → attrs ≡ₚ attrs' →
  lastWithKey k attrs = lastWithKey k attrs'.
Proof.
  intros Hnd Hperm.
  assert (Hnd' : NoDup (Key <$> attrs')) by (by rewrite <- Hperm).
  destruct (lastWithKey k attrs) as [a|] eqn:Hl.
  - apply lastWithKey_Some_elem in Hl as [Ha <-].
    symmetry. apply lastWithKey_NoDup; [done|]. by rewrite <- Hperm.
  - symmetry. apply lastWithKey_None. apply lastWithKey_None in Hl.
    by rewrite <- Hperm.
Qed.

(** X6. When the attribute keys of a span are pairwise distinct, the order
    in which [Attributes] lists them does not matter: a span with the same
    attributes in another order gets the same fields map, the same decision
    and leaves the same store. *)
Theorem X6_attribute_order_irrelevant s p attrs' σ :
  NoDup (Key <$> Attributes p) → Attributes p ≡ₚ attrs' →
  shouldSample s {| Attributes := attrs'; Name := Name p; SpanContext := SpanContext p |} σ
    = shouldSample s p σ.
Proof.
  intros Hnd Hperm.
  set (p' := {| Attributes := attrs'; Name := Name p; SpanContext := SpanContext p |}).
  assert (Hf : spanFields p' = spanFields p).
  { apply map_eq. intros k. destruct (decide (k = "name")) as [->|Hk].
    - by rewrite !spanFields_name.
    - rewrite !spanFields_other by done. simpl.
      by rewrite (lastWithKey_Permutation k (Attributes p) attrs'). }
  rewrite !shouldSample_run. unfold withFields, sampleKey, determinant.
  by rewrite Hf.
Qed.

Lemma X6_attribute_order_irrelevant_witness :
  shouldSample Scenario.sampler
    {| Attributes :=
         [ {| Key := "b"; Value := attribute.BoolValue true |};
           {| Key := "a"; Value := attribute.Int64Value 1 |} ];
       Name := "checkout";
       SpanContext := {| trace.spanID := Scenario.idCrcHalf |} |}
    (Scenario.storeWithRate 10)
  = shouldSample Scenario.sampler
      (Scenario.span "checkout"
         [ {| Key := "a"; Value := attribute.Int64Value 1 |};
           {| Key := "b"; Value := attribute.BoolValue true |} ]
         Scenario.idCrcHalf)
      (Scenario.storeWithRate 10).
Proof.
  apply (X6_attribute_order_irrelevant Scenario.sampler
           (Scenario.span "checkout"
              [ {| Key := "a"; Value := attribute.Int64Value 1 |};
                {| Key := "b"; Value := attribute.BoolValue true |} ]
              Scenario.idCrcHalf)).
  - simpl. apply NoDup_cons. split; [|apply NoDup_singleton].
    intros Hin. apply list_elem_of_singleton in Hin. discriminate.
  - simpl. apply Permutation_swap.
Defined.

(** X7. A key function that reads nothing but [fields["name"]] makes the
    decision independent of the attributes: two spans with the same name
    and span ID are decided alike, whatever attributes they carry. *)
Theorem X7_name_keyed_ignores_attributes s p1 p2 σ :
  (∀ m1 m2 : gmap string any,
     m1 !! "name" = m2 !! "name" → sampleKeyFunc s m1 = sampleKeyFunc s m2) →
  Name p1 = Name p2 → SpanContext p1 = SpanContext p2 →
  result (shouldSample s p1 σ) = result (shouldSample s p2 σ).
Proof.
  intros Hf Hn Hc. rewrite !shouldSample_result.
  unfold sampleKey, determinant. rewrite Hc. f_equal.
  apply Hf. by rewrite !spanFields_name, Hn.
Qed.

Lemma X7_name_keyed_ignores_attributes_witness :
  result (shouldSample Scenario.sampler Scenario.shadowed (Scenario.storeWithRate 10)) =
  result (shouldSample Scenario.sampler (Scenario.span "GET /help" [] Scenario.idCrcZero)
            (Scenario.storeWithRate 10)).
Proof.
  apply (X7_name_keyed_ignores_attributes Scenario.sampler Scenario.shadowed
           (Scenario.span "GET /help" [] Scenario.idCrcZero)).
  - intros m1 m2 Hm. simpl. unfold Scenario.keyByName. rewrite Hm. reflexivity.
  - reflexivity.
  - reflexivity.
Defined.

(** *** The determinant *)

Lemma hex_byte_inverse v :
  Byte.of_N (16 * HexDecode.digitValue (Hex.hexDigit (N.shiftr (Byte.to_N v) 4))
             + HexDecode.digitValue (Hex.hexDigit (N.land (Byte.to_N v) 0x0f)))%N = Some v.
Proof. destruct v; vm_compute; reflexivity. Qed.

Lemma decode_EncodeToString id : HexDecode.decode (Hex.EncodeToString id) = Some id.
Proof.
  induction id as [|v rest IH]; [done|].
  simpl. rewrite hex_byte_inverse. simpl. by rewrite IH.
Qed.

Lemma hexDigit_is_hex n :
  (n < 16)%N → HexDecode.isHexDigit (Hex.hexDigit n) = true.
Proof.
  intros Hn.
  assert (Hall : forallb (λ k, HexDecode.isHexDigit (Hex.hexDigit (N.of_nat k))) (seq 0 16) = true)
    by (vm_compute; reflexivity).
  rewrite forallb_forall in Hall.
  specialize (Hall (N.to_nat n)). rewrite N2Nat.id in Hall.
  apply Hall, in_seq. lia.
Qed.

(** X8. The determinant of a span is its ID in lower-case hexadecimal, two
    characters per byte (16 for an ID of 8 bytes), and the ID can be read
    back from it: spans with different IDs have different determinants. *)
Theorem X8_determinant_identifies_span p :
  String.length (determinant p) = (2 * length (trace.spanID (SpanContext p)))%nat ∧
  Forall (λ c, HexDecode.isHexDigit c = true) (list_ascii_of_string (determinant p)) ∧
  HexDecode.decode (determinant p) = Some (trace.spanID (SpanContext p)) ∧
  (∀ p', determinant p' = determinant p →
         trace.spanID (SpanContext p') = trace.spanID (SpanContext p)).
Proof.
  unfold determinant, trace.String.
  split; [|split; [|split]].
  - induction (trace.spanID (SpanContext p)) as [|v rest IH]; [done|].
    simpl. rewrite IH. lia.
  - induction (trace.spanID (SpanContext p)) as [|v rest IH]; [constructor|].
    simpl. constructor; [|constructor; [|done]].
    + apply hexDigit_is_hex. rewrite N.shiftr_div_pow2.
      pose proof (Byte.to_N_bounded v). apply N.Div0.div_lt_upper_bound.
      change (2 ^ 4 * 16)%N with 256%N. lia.
    + apply hexDigit_is_hex. change 15%N with (N.ones 4). rewrite N.land_ones.
      apply N.mod_lt. done.
  - apply decode_EncodeToString.
  - intros p' Heq.
    pose proof (decode_EncodeToString (trace.spanID (SpanContext p'))) as H1.
    rewrite Heq, decode_EncodeToString in H1. by injection H1.
Qed.

(** *** Spans sampled in sequence *)

Lemma result_after_withFields s q σ p :
  result (shouldSample s q (withFields σ p)) = result (shouldSample s q σ).
Proof. by rewrite !shouldSample_result. Qed.

(** X13. Sampling a list of spans one after the other gives, span by span,
    the decision each span gets when sampled alone in the initial store:
    earlier calls have no influence on later ones. This holds when every
    span's call returns. *)
Theorem X13_sequence_decides_span_by_span s ps σ :
  Forall (λ p, returned (result (shouldSample s p σ))) ps →
  ∃ ds, result (sampleAll s ps σ) = Returns ds ∧
        Forall2 (λ p d, result (shouldSample s p σ) = Returns d) ps ds.
Proof.
  revert σ. induction ps as [|p rest IH]; intros σ Hall.
  - exists []. split; [done|constructor].
  - apply Forall_cons in Hall as [[d Hd] Hrest].
    rewrite sampleAll_cons_run. rewrite shouldSample_result in Hd. rewrite Hd.
    destruct (IH (withFields σ p)) as (ds & Hds & Hf2).
    + eapply Forall_impl; [exact Hrest|]. intros q Hq.
      by rewrite result_after_withFields.
    + destruct (sampleAll s rest (withFields σ p)) as [[ds'|msg] σ'];
        unfold result in Hds; simpl in Hds; [|discriminate].
      injection Hds as ->. exists (d :: ds). split; [done|].
      constructor.
      * by rewrite shouldSample_result.
      * eapply Forall2_impl; [exact Hf2|]. intros q dq Hq. cbv beta in Hq.
        by rewrite result_after_withFields in Hq.
Qed.

Lemma X13_sequence_decides_span_by_span_witness :
  ∃ ds, result (sampleAll Scenario.sampler
                  [Scenario.checkout Scenario.idCrcZero; Scenario.shadowed]
                  (Scenario.storeWithRate 10)) = Returns ds ∧
        Forall2 (λ p d, result (shouldSample Scenario.sampler p (Scenario.storeWithRate 10))
                          = Returns d)
          [Scenario.checkout Scenario.idCrcZero; Scenario.shadowed] ds.
Proof.
  apply (X13_sequence_decides_span_by_span Scenario.sampler
           [Scenario.checkout Scenario.idCrcZero; Scenario.shadowed]
           (Scenario.storeWithRate 10)).
  repeat constructor; eexists; rewrite shouldSample_result; vm_compute; reflexivity.
Defined.

End SamplerMore.

(** ** The facade, further properties *)

Module FacadeMore.
Import O11y.
Import O11yResult.

Section Lookup.

Context {World any : Type}.
Variable anyOfString : string → any.
Variable backendProviders : nat → ProviderMethods.t World any.
Variable backendSpans : nat → SpanMethods.t World any.

Lemma Value_withForeignValues (ctx : context.Context any) layers :
  context.Value (withForeignValues ctx layers) providerKey = context.Value ctx providerKey.
Proof.
  revert ctx. induction layers as [|layer rest IH]; intros ctx; [done|].
  unfold withForeignValues in *. simpl. by rewrite IH.
Qed.

(** X9. [FromContext] finds what the nearest [WithProvider] stored, through
    any number of values other packages have put on top; where that
    [WithProvider] stored a nil provider the result is the no-op default,
    not nil, even if a provider is stored further out. *)
Theorem X9_provider_round_trip (ctx : context.Context any) p layers :
  FromContext (withForeignValues (WithProvider ctx p) layers) = default defaultProvider p.
Proof.
  unfold FromContext. rewrite Value_withForeignValues.
  unfold WithProvider. simpl. by destruct p.
Qed.

(** X10. With a provider stored in the context, every call of the package
    goes to that provider's method, with the context it was given. *)
Theorem X10_calls_reach_stored_provider (ctx : context.Context any) p layers :
  let ctx' := withForeignValues (WithProvider ctx (Some p)) layers in
  (∀ name w, StartSpan backendProviders ctx' name w =
             ProviderMethods.StartSpan (providerMethods backendProviders p) ctx' name w) ∧
  (∀ key val w, AddField backendProviders ctx' key val w =
                ProviderMethods.AddField (providerMethods backendProviders p) ctx' key val w) ∧
  (∀ key val w, AddFieldToTrace backendProviders ctx' key val w =
                ProviderMethods.AddFieldToTrace (providerMethods backendProviders p)
                  ctx' key val w).
Proof.
  intros ctx'.
  assert (Hp : FromContext ctx' = p).
  { unfold ctx', FromContext. by rewrite Value_withForeignValues. }
  unfold StartSpan, AddField, AddFieldToTrace. by rewrite Hp.
Qed.

Lemma perform_noop (ctx : context.Context any) w op :
  builtWithoutProvider ctx →
  perform anyOfString backendProviders backendSpans (Client ctx noopSpanPtr w) op =
    Client ctx noopSpanPtr w.
Proof.
  intros Hctx. pose proof (FacadeSpec.FromContext_without_provider ctx Hctx) as Hp.
  destruct op as [name|key val|key val|name fields|key val|err|]; simpl.
  - unfold StartSpan. by rewrite Hp.
  - unfold AddField. by rewrite Hp.
  - unfold AddFieldToTrace. by rewrite Hp.
  - by rewrite Hp.
  - done.
  - by destruct err.
  - done.
Qed.

(** X11. A client whose context carries no provider can make any sequence
    of calls (start spans, add fields to the span or the trace, log, add a
    result, end the span): the backend's state is never touched, and the
    client still holds the context it started with and a no-op span. *)
Theorem X11_calls_without_provider_do_nothing (ctx : context.Context any) w ops :
  builtWithoutProvider ctx →
  performAll anyOfString backendProviders backendSpans (Client ctx noopSpanPtr w) ops =
    Client ctx noopSpanPtr w.
Proof.
  intros Hctx. unfold performAll.
  induction ops as [|op rest IH]; simpl; [done|].
  by rewrite perform_noop.
Qed.

(** X12. On a span whose [AddField] writes a field and leaves the others,
    [AddResultToSpan] sets "result" to "error" and "error" to the error's
    text when the error is not nil, and "result" to "success" when it is;
    in the latter case an "error" field the span already had stays as it
    is. No other field changes. *)
Theorem X12_AddResultToSpan_fields span (fieldsOf : World → gmap string any) err w :
  (∀ key val w', fieldsOf (SpanMethods.AddField (spanMethods backendSpans span) key val w') =
                 <[key := val]> (fieldsOf w')) →
  let after := fieldsOf (AddResultToSpan anyOfString backendSpans span err w) in
  after !! "result" =
    Some (anyOfString (match err with Some _ => "error" | None => "success" end)) ∧
  after !! "error" =
    match err with
    | Some msg => Some (anyOfString msg)
    | None => fieldsOf w !! "error"
    end ∧
  (∀ k, k ≠ "result" → k ≠ "error" → after !! k = fieldsOf w !! k).
Proof.
  intros Hadd after. unfold after, AddResultToSpan.
  destruct err as [msg|]; rewrite ?Hadd.
  - split; [|split].
    + rewrite lookup_insert_ne by done. by rewrite lookup_insert_eq.
    + by rewrite lookup_insert_eq.
    + intros k Hr He. by rewrite !lookup_insert_ne.
  - split; [|split].
    + by rewrite lookup_insert_eq.
    + by rewrite lookup_insert_ne.
    + intros k Hr He. by rewrite lookup_insert_ne.
Qed.

End Lookup.

Lemma X11_calls_without_provider_do_nothing_witness :
  performAll id FacadeScenario.countingProviders FacadeScenario.countingSpans
    (Client FacadeScenario.requestCtx noopSpanPtr 0%nat)
    [ callStartSpan "GET /help"; callAddField "user" "u1"%string;
      callAddResultToSpan (Some "boom"%string); callSpanEnd ]
  = Client FacadeScenario.requestCtx noopSpanPtr 0%nat.
Proof.
  apply (X11_calls_without_provider_do_nothing id FacadeScenario.countingProviders
           FacadeScenario.countingSpans FacadeScenario.requestCtx).
  simpl. split; [discriminate|exact I].
Defined.

Lemma X12_AddResultToSpan_fields_witness :
  let after :=
    id (AddResultToSpan id ResultScenario.recordingSpans (backendSpan 0) None
          {[ "error" := "stale"%string ]}) in
  after !! "result" = Some (id "success"%string) ∧
  after !! "error" = id ({[ "error" := "stale"%string ]} : gmap string string) !! "error" ∧
  (∀ k, k ≠ "result" → k ≠ "error" →
        after !! k = id ({[ "error" := "stale"%string ]} : gmap string string) !! k).
Proof.
  apply (X12_AddResultToSpan_fields id ResultScenario.recordingSpans (backendSpan 0) id None
           {[ "error" := "stale"%string ]}).
  intros key val w'. reflexivity.
Defined.

End FacadeMore.
